(** * debank_badge_claimer: a shallow embedding of [main.py] and [debank/debank.py]

    The script logs a list of accounts into a remote service, asks for every
    badge of a catalog whether the account may mint it, and calls
    [badge_mint] if so.
    Five [worker] coroutines drain one [asyncio.Queue].

    Layout of the development:
    - Python values as the code sees them (decoded JSON, exceptions);
    - [validate_response] and the endpoint methods of [Debank];
    - [DebankWorker.login], [badge_list], the body of [worker] as coroutines
      whose suspension points are the [await]s of the source;
    - the event loop: a scheduler resuming one task at a time;
    - the properties. *)

From Stdlib Require Import List String Ascii ZArith Bool Arith Lia Permutation.
From Stdlib Require Import DecimalString.
Import ListNotations.
Local Open Scope string_scope.
Local Open Scope list_scope.

Set Implicit Arguments.
Local Set Warnings "-register-all".

(* ===================================================================== *)
(** ** Python values *)
(* ===================================================================== *)

(** What [response.json()] returns.  JSON numbers are integers here: every
    number the script reads (badge ids) is one. *)
Inductive JSON : Type :=
| JNull
| JBool (b : bool)
| JInt (n : Z)
| JStr (s : string)
| JArr (items : list JSON)
| JObj (fields : list (string * JSON)).

(** Exceptions.  [DebankError] is the class the module declares; every other
    exception is a built-in or library one, kept with its class name and the
    text [str(e)] gives. *)
Inductive exn : Type :=
| DebankError (msg : string)
| PyError (cls : string) (msg : string).

Definition exn_str (e : exn) : string :=
  match e with
  | DebankError msg => msg
  | PyError _ msg => msg
  end.

Inductive result (A : Type) : Type :=
| Ok (a : A)
| Raise (e : exn).
Arguments Ok {A} a.
Arguments Raise {A} e.

Definition rbind {A B} (r : result A) (f : A -> result B) : result B :=
  match r with
  | Ok a => f a
  | Raise e => Raise e
  end.

Notation "'let?' x ':=' r 'in' k" := (rbind r (fun x => k))
  (at level 10, x name, r at level 100, k at level 200).

Definition TypeError (msg : string) : exn := PyError "TypeError" msg.
Definition KeyError (key : string) : exn := PyError "KeyError" ("'" ++ key ++ "'").
Definition JSONDecodeError : exn :=
  PyError "JSONDecodeError" "Expecting value: line 1 column 1 (char 0)".

(** [needle in hay] on two [str]: substring search. *)
Fixpoint str_contains (needle hay : string) : bool :=
  if String.prefix needle hay then true
  else match hay with
       | EmptyString => false
       | String _ rest => str_contains needle rest
       end.

Fixpoint lookup (key : string) (fields : list (string * JSON)) : option JSON :=
  match fields with
  | [] => None
  | (k, v) :: rest => if String.eqb k key then Some v else lookup key rest
  end.

Definition is_str (s : string) (j : JSON) : bool :=
  match j with
  | JStr t => String.eqb t s
  | _ => false
  end.

(** [key in value] for a [str] key: key membership on a dict, element
    membership on a list, substring on a [str]; a [TypeError] on anything
    else. *)
Definition py_contains (key : string) (value : JSON) : result bool :=
  match value with
  | JObj fields => Ok (match lookup key fields with Some _ => true | None => false end)
  | JArr items => Ok (existsb (is_str key) items)
  | JStr s => Ok (str_contains key s)
  | JNull => Raise (TypeError "argument of type 'NoneType' is not iterable")
  | JBool _ => Raise (TypeError "argument of type 'bool' is not iterable")
  | JInt _ => Raise (TypeError "argument of type 'int' is not iterable")
  end.

(** [value[key]] for a [str] key. *)
Definition py_getitem (value : JSON) (key : string) : result JSON :=
  match value with
  | JObj fields =>
      match lookup key fields with
      | Some v => Ok v
      | None => Raise (KeyError key)
      end
  | JArr _ => Raise (TypeError "list indices must be integers or slices, not str")
  | JStr _ => Raise (TypeError "string indices must be integers, not 'str'")
  | JNull => Raise (TypeError "'NoneType' object is not subscriptable")
  | JBool _ => Raise (TypeError "'bool' object is not subscriptable")
  | JInt _ => Raise (TypeError "'int' object is not subscriptable")
  end.

(** Truth value of an object, as [if x:] tests it. *)
Definition py_truthy (value : JSON) : bool :=
  match value with
  | JNull => false
  | JBool b => b
  | JInt n => negb (Z.eqb n 0)
  | JStr s => negb (String.eqb s "")
  | JArr items => match items with [] => false | _ => true end
  | JObj fields => match fields with [] => false | _ => true end
  end.

(* ===================================================================== *)
(** ** The libraries the script calls *)
(* ===================================================================== *)

Inductive http_method : Type := GET | POST.

(** One call of [AsyncClient.get] / [AsyncClient.post]: the arguments the
    source passes, and the headers and proxy of the client it is made on. *)
Record request : Type := mk_request {
  rq_method : http_method;
  rq_url : string;
  rq_params : option JSON;
  rq_json : option JSON;
  rq_headers : list (string * string);
  rq_proxies : option string
}.

(** An [httpx.Response]: [json] is what [response.json()] gives, [None] when
    the body does not decode. *)
Record Response : Type := mk_response {
  status_code : Z;
  text : string;
  json : option JSON
}.

(** [eth_account.Account]: the address, and the key [sign_message] signs with. *)
Record Account : Type := mk_account {
  address : string;
  key : string
}.

(** The parts of the Python runtime and of the libraries that the source only
    calls.  [HEADERS] is the constant of [debank/const.py]. *)
Record runtime : Type := mk_runtime {
  HEADERS : list (string * string);
  (** [str(x)] of a value that is not a [str] *)
  py_repr : JSON -> string;
  json_dumps : JSON -> string;
  (** [Account.from_key(private_key)] *)
  from_key : string -> result Account;
  (** [account.sign_message(encode_defunct(text=t)).signature.hex()] *)
  sign_message : Account -> JSON -> result string;
  (** what [AsyncClient(headers=..., http2=True, proxies=...)] raises, if it does *)
  client_error : option string -> option exn
}.

(** [f"{x}"] *)
Definition py_str (rt : runtime) (value : JSON) : string :=
  match value with
  | JStr s => s
  | _ => py_repr rt value
  end.

(* ===================================================================== *)
(** ** [class Debank]: response validation *)
(* ===================================================================== *)

Definition response_json (response : Response) : result JSON :=
  match json response with
  | Some body => Ok body
  | None => Raise JSONDecodeError
  end.

Definition validate_response (rt : runtime) (response : Response) : result Response :=
  if negb (Z.eqb (status_code response) 200) then
    Raise (DebankError ("Debank return " ++ text response))
  else
    let? err_json := response_json response in
    let? found := py_contains "error_msg" err_json in
    if found then
      let? msg := py_getitem err_json "error_msg" in
      Raise (DebankError ("Debank return " ++ py_str rt msg))
    else
      Ok response.

(* ===================================================================== *)
(** ** Coroutines *)
(* ===================================================================== *)

Inductive level : Type := INFO | SUCCESS | ERROR.

(** An [async def] body as the tree of what it does next.  [Http] and [Sleep]
    are the [await]s at which the event loop may run another task; [Log],
    [Time] and [Uuid4] are calls that return at once. *)
Inductive coro (A : Type) : Type :=
| Ret (a : A)
| Throw (e : exn)
| Http (rq : request) (k : result Response -> coro A)
| Sleep (secs : Z) (k : coro A)
| Log (lvl : level) (msg : string) (k : coro A)
| Time (k : Z -> coro A)
| Uuid4 (k : string -> coro A).
Arguments Ret {A} a.
Arguments Throw {A} e.
Arguments Http {A} rq k.
Arguments Sleep {A} secs k.
Arguments Log {A} lvl msg k.
Arguments Time {A} k.
Arguments Uuid4 {A} k.

Fixpoint bind {A B} (c : coro A) (f : A -> coro B) : coro B :=
  match c with
  | Ret a => f a
  | Throw e => Throw e
  | Http rq k => Http rq (fun r => bind (k r) f)
  | Sleep secs k => Sleep secs (bind k f)
  | Log lvl msg k => Log lvl msg (bind k f)
  | Time k => Time (fun t => bind (k t) f)
  | Uuid4 k => Uuid4 (fun u => bind (k u) f)
  end.

(** [try: c  except ...: handler] *)
Fixpoint try_except {A} (c : coro A) (handler : exn -> coro A) : coro A :=
  match c with
  | Ret a => Ret a
  | Throw e => handler e
  | Http rq k => Http rq (fun r => try_except (k r) handler)
  | Sleep secs k => Sleep secs (try_except k handler)
  | Log lvl msg k => Log lvl msg (try_except k handler)
  | Time k => Time (fun t => try_except (k t) handler)
  | Uuid4 k => Uuid4 (fun u => try_except (k u) handler)
  end.

Definition lift {A} (r : result A) : coro A :=
  match r with
  | Ok a => Ret a
  | Raise e => Throw e
  end.

Notation "'do' x '<-' c ';' k" := (bind c (fun x => k))
  (at level 10, x name, c at level 100, k at level 200).

(* ===================================================================== *)
(** ** [class Debank]: the endpoint methods *)
(* ===================================================================== *)

Module DebankApiUrl.
Definition REFCODE_TRACK := "https://api.debank.com/user/ref_code/track".
Definition BADGE_USER_CAN_MINT := "https://api.debank.com/badge/user_can_mint".
Definition BADGE_MINT := "https://api.debank.com/badge/mint".
Definition SIGN_V2 := "https://api.debank.com/user/sign_v2".
Definition LOGIN_V2 := "https://api.debank.com/user/login_v2".
Definition BADGE_LIST := "https://api.debank.com/badge/list".
End DebankApiUrl.

Definition lower_ascii (c : ascii) : ascii :=
  let n := nat_of_ascii c in
  if andb (65 <=? n)%nat (n <=? 90)%nat then ascii_of_nat (n + 32) else c.

(** [str.lower()] *)
Fixpoint lower (s : string) : string :=
  match s with
  | EmptyString => EmptyString
  | String c rest => String (lower_ascii c) (lower rest)
  end.

(** A [Debank] object is its [AsyncClient]: the headers sent with every
    request and the proxy it was built with. *)
Record Debank : Type := mk_Debank {
  headers : list (string * string);
  proxies : option string
}.

(** [Debank.__init__]: [proxies={"all://": proxy} if proxy else None]. *)
Definition Debank_init (rt : runtime) (proxy : option string) : result Debank :=
  let proxies :=
    match proxy with
    | Some p => if String.eqb p "" then None else Some p
    | None => None
    end in
  match client_error rt proxies with
  | Some e => Raise e
  | None => Ok (mk_Debank (HEADERS rt) proxies)
  end.

Definition same_header (name : string) (entry : string * string) : bool :=
  String.eqb (lower (fst entry)) (lower name).

Fixpoint drop_header (name : string) (hs : list (string * string)) : list (string * string) :=
  match hs with
  | [] => []
  | h :: rest => if same_header name h then drop_header name rest else h :: drop_header name rest
  end.

(** [client.headers[name] = value]: the first entry of that name (names
    compare without case) takes the value in place and later ones go; with no
    such entry the header is appended. *)
Fixpoint set_header (name value : string) (hs : list (string * string)) : list (string * string) :=
  match hs with
  | [] => [(name, value)]
  | h :: rest =>
      if same_header name h then (name, value) :: drop_header name rest
      else h :: set_header name value rest
  end.

(** [client.headers[name]] *)
Fixpoint get_header (name : string) (hs : list (string * string)) : option string :=
  match hs with
  | [] => None
  | h :: rest => if same_header name h then Some (snd h) else get_header name rest
  end.

Definition client_request (self : Debank) (m : http_method) (url : string)
    (params body : option JSON) : coro Response :=
  Http (mk_request m url params body (headers self) (proxies self)) lift.

Definition refcode_track (rt : runtime) (self : Debank) : coro Response :=
  do response <- client_request self POST DebankApiUrl.REFCODE_TRACK None None;
  lift (validate_response rt response).

Definition badge_user_can_mint (rt : runtime) (self : Debank) (id : JSON) : coro Response :=
  do response <- client_request self GET DebankApiUrl.BADGE_USER_CAN_MINT
                   (Some (JObj [("id", id)])) None;
  lift (validate_response rt response).

(** What a call of [AsyncClient.get] with a [json] argument raises: [get]
    has no such parameter (only [post] and [request] take a body). *)
Definition get_json_error : exn :=
  TypeError "AsyncClient.get() got an unexpected keyword argument 'json'".

(** [self.client.get(url, params=params, json=body)]: with a [json] argument
    the call raises when it is made, before any request is sent and before
    anything is awaited. *)
Definition client_get (self : Debank) (url : string) (params body : option JSON)
    : coro Response :=
  match body with
  | Some _ => Throw get_json_error
  | None => client_request self GET url params None
  end.

Definition badge_mint (rt : runtime) (self : Debank) (id : JSON) : coro Response :=
  do response <- client_get self DebankApiUrl.BADGE_MINT
                   None (Some (JObj [("id", id)]));
  lift (validate_response rt response).

Definition sign_v2 (rt : runtime) (self : Debank) (address : string) : coro Response :=
  do response <- client_request self POST DebankApiUrl.SIGN_V2
                   None (Some (JObj [("id", JStr address)]));
  lift (validate_response rt response).

Definition login_v2 (rt : runtime) (self : Debank) (address signature : string) : coro Response :=
  do response <- client_request self POST DebankApiUrl.LOGIN_V2
                   None (Some (JObj [("id", JStr address); ("signature", JStr signature)]));
  lift (validate_response rt response).

(* ===================================================================== *)
(** ** [class DebankWorker] *)
(* ===================================================================== *)

(** [response.json()["data"][field]] *)
Definition data_field (response : Response) (field : string) : result JSON :=
  let? body := response_json response in
  let? data := py_getitem body "data" in
  py_getitem data field.

Definition account_header (now : Z) (random_id : string) (session_id : JSON)
    (user_addr : string) : JSON :=
  JObj [("random_at", JInt now);
        ("random_id", JStr random_id);
        ("session_id", session_id);
        ("user_addr", JStr user_addr);
        ("wallet_type", JStr "metamask");
        ("is_verified", JBool true)].

(** [DebankWorker.login]; the object it returns is [self] after the
    assignment to [self.client.headers["account"]]. *)
Definition login (rt : runtime) (self : Debank) (account : Account) : coro Debank :=
  do sign_v2_response <- sign_v2 rt self (lower (address account));
  do sign_v2_text <- lift (data_field sign_v2_response "text");
  do signature <- lift (sign_message rt account sign_v2_text);
  do login_v2_response <- login_v2 rt self (lower (address account)) signature;
  do session_id <- lift (data_field login_v2_response "session_id");
  Time (fun now =>
  Uuid4 (fun random_id =>
  Ret (mk_Debank
         (set_header "account"
            (json_dumps rt (account_header now random_id session_id (lower (address account))))
            (headers self))
         (proxies self)))).

Definition is_can_mint_bage (rt : runtime) (self : Debank) (id : JSON) : coro JSON :=
  do response <- badge_user_can_mint rt self id;
  lift (data_field response "can_mint").

(* ===================================================================== *)
(** ** [badge_list] *)
(* ===================================================================== *)

Definition str_of_nat (n : nat) : string := NilZero.string_of_uint (Nat.to_uint n).

Definition type_name (value : JSON) : string :=
  match value with
  | JNull => "NoneType"
  | JBool _ => "bool"
  | JInt _ => "int"
  | JStr _ => "str"
  | JArr _ => "list"
  | JObj _ => "dict"
  end.

(** [len(value)] *)
Definition py_len (value : JSON) : result nat :=
  match value with
  | JArr items => Ok (List.length items)
  | JObj fields => Ok (List.length fields)
  | JStr s => Ok (String.length s)
  | _ => Raise (TypeError ("object of type '" ++ type_name value ++ "' has no len()"))
  end.

(** The values [for badge in value] goes through: the items of a list, the
    keys of a dict, the characters of a [str]. *)
Definition py_iter (value : JSON) : result (list JSON) :=
  match value with
  | JArr items => Ok items
  | JObj fields => Ok (map (fun kv => JStr (fst kv)) fields)
  | JStr s => Ok (map (fun c => JStr (String c EmptyString)) (list_ascii_of_string s))
  | _ => Raise (TypeError ("'" ++ type_name value ++ "' object is not iterable"))
  end.

Fixpoint mapM {A B} (f : A -> result B) (l : list A) : result (list B) :=
  match l with
  | [] => Ok []
  | a :: rest =>
      let? b := f a in
      let? bs := mapM f rest in
      Ok (b :: bs)
  end.

(** The items of [sep.join(items)], which must all be [str]. *)
Fixpoint join_items (index : nat) (items : list JSON) : result (list string) :=
  match items with
  | [] => Ok []
  | JStr s :: rest =>
      let? ss := join_items (S index) rest in
      Ok (s :: ss)
  | other :: _ =>
      Raise (TypeError ("sequence item " ++ str_of_nat index ++ ": expected str instance, "
                        ++ type_name other ++ " found"))
  end.

Definition str_join (sep : string) (items : list JSON) : result string :=
  let? ss := join_items 0 items in
  Ok (String.concat sep ss).

(** [a == b] on dict keys: [True == 1] and [False == 0], otherwise equal
    values of one type. *)
Definition key_eqb (a b : JSON) : bool :=
  match a, b with
  | JNull, JNull => true
  | JBool x, JBool y => Bool.eqb x y
  | JInt x, JInt y => Z.eqb x y
  | JBool x, JInt y => Z.eqb (if x then 1 else 0) y
  | JInt x, JBool y => Z.eqb x (if y then 1 else 0)
  | JStr x, JStr y => String.eqb x y
  | _, _ => false
  end.

Definition hashable (value : JSON) : bool :=
  match value with
  | JArr _ | JObj _ => false
  | _ => true
  end.

(** A [dict] in insertion order. *)
Definition dict : Type := list (JSON * JSON).

(** [d[k] = v] on a hashable [k]: an equal key keeps its place and its key
    object and takes the new value; a new key goes last. *)
Fixpoint dict_put (k v : JSON) (d : dict) : dict :=
  match d with
  | [] => [(k, v)]
  | (k', v') :: rest =>
      if key_eqb k' k then (k', v) :: rest else (k', v') :: dict_put k v rest
  end.

Definition dict_setitem (k v : JSON) (d : dict) : result dict :=
  if hashable k then Ok (dict_put k v d)
  else Raise (TypeError ("unhashable type: '" ++ type_name k ++ "'")).

(** [{badge["id"]: badge["name"] for badge in badges}], into [acc]. *)
Fixpoint badge_dict (badges : list JSON) (acc : dict) : result dict :=
  match badges with
  | [] => Ok acc
  | badge :: rest =>
      let? id := py_getitem badge "id" in
      let? name := py_getitem badge "name" in
      let? acc' := dict_setitem id name acc in
      badge_dict rest acc'
  end.

(** The text logged by [badge_list], for the decoded [badge_list] field. *)
Definition badge_summary (badges : JSON) : result string :=
  let? n := py_len badges in
  let? items := py_iter badges in
  let? names := mapM (fun badge => py_getitem badge "name") items in
  let? joined := str_join ", " names in
  Ok ("Found " ++ str_of_nat n ++ " badges. Names: " ++ joined ++ ".")%string.

(** What [badge_list] does with the response it got. *)
Definition badge_list_of (response : Response) : coro dict :=
  do badges <- lift (data_field response "badge_list");
  do summary <- lift (badge_summary badges);
  Log INFO summary
    (lift (let? items := py_iter badges in badge_dict items [])).

Definition badge_list (rt : runtime) : coro dict :=
  match client_error rt None with
  | Some e => Throw e
  | None =>
      Http (mk_request GET DebankApiUrl.BADGE_LIST None None (HEADERS rt) None)
        (fun r => do response <- lift r; badge_list_of response)
  end.

(* ===================================================================== *)
(** ** [worker]: one account *)
(* ===================================================================== *)

(** [for id, name in BADGE_IDS.items(): ...] *)
Fixpoint mint_loop (rt : runtime) (debank : Debank) (account : Account)
    (items : dict) : coro unit :=
  match items with
  | [] => Ret tt
  | (id, name) :: rest =>
      do is_can_mint <- is_can_mint_bage rt debank id;
      do _ <- (if py_truthy is_can_mint then
                 do _ <- badge_mint rt debank id;
                 Log SUCCESS ("[" ++ address account ++ "] Badge " ++ py_str rt name ++ " minted")
                   (Ret tt)
               else
                 Log ERROR ("[" ++ address account ++ "] Badge " ++ py_str rt name ++ " can't minted")
                   (Ret tt));
      Sleep 2 (mint_loop rt debank account rest)
  end.

Definition on_error (e : exn) : coro unit :=
  match e with
  | DebankError _ => Log ERROR ("Debank Error: " ++ exn_str e) (Ret tt)
  | PyError _ _ => Log ERROR ("Error: " ++ exn_str e) (Ret tt)
  end.

(** The [try] statement of [worker]. *)
Definition attempt (rt : runtime) (BADGE_IDS : dict) (debank : Debank)
    (account : Account) : coro unit :=
  try_except
    (do debank' <- login rt debank account;
     mint_loop rt debank' account BADGE_IDS)
    on_error.

(** A queue item is the list [main] put: [[private_key, proxy]]. *)
Definition item : Type := list (option string).

(** The statements of the loop body before the [try]: unpacking the item,
    [Account.from_key] and [DebankWorker(proxy)]. *)
Definition prepare (rt : runtime) (it : item) : result (Account * Debank) :=
  match it with
  | [Some private_key; proxy] =>
      let? account := from_key rt private_key in
      let? debank := Debank_init rt proxy in
      Ok (account, debank)
  | [None; _] => Raise (TypeError "from_key: not a key")
  | _ => Raise (PyError "ValueError" "not enough values to unpack (expected 2)")
  end.

(* ===================================================================== *)
(** ** [main]: reading the accounts *)
(* ===================================================================== *)

Definition colon : ascii := ":"%char.

(** [s.split(":", maxsplit=1)] *)
Fixpoint split_colon (s : string) : list string :=
  match s with
  | EmptyString => [EmptyString]
  | String c rest =>
      if Ascii.eqb c colon then [EmptyString; rest]
      else match split_colon rest with
           | first :: others => String c first :: others
           | [] => [String c EmptyString]
           end
  end.

Definition format_account (account : string) : item :=
  if str_contains ":" account then map Some (split_colon account)
  else [Some account; None].

Definition format_accounts (accounts : list string) : list item :=
  map format_account accounts.

(* ===================================================================== *)
(** ** Running a coroutine *)
(* ===================================================================== *)

(** What a run leaves behind, oldest first. *)
Inductive event : Type :=
| EvHttp (rq : request) (r : result Response)
| EvSleep (secs : Z)
| EvLog (lvl : level) (msg : string)
| EvTime (t : Z)
| EvUuid (u : string).

(** The world outside the process: what the remote service answers (or the
    transport raises), the clock and the random source.  Each may depend on
    everything that happened before. *)
Record world : Type := mk_world {
  http : list event -> request -> result Response;
  time_now : list event -> Z;
  uuid4_hex : list event -> string
}.

(** A coroutine run alone to its end, from history [h]. *)
Fixpoint exec {A} (w : world) (c : coro A) (h : list event) : result A * list event :=
  match c with
  | Ret a => (Ok a, h)
  | Throw e => (Raise e, h)
  | Http rq k => let r := http w h rq in exec w (k r) (h ++ [EvHttp rq r])
  | Sleep secs k => exec w k (h ++ [EvSleep secs])
  | Log lvl msg k => exec w k (h ++ [EvLog lvl msg])
  | Time k => let t := time_now w h in exec w (k t) (h ++ [EvTime t])
  | Uuid4 k => let u := uuid4_hex w h in exec w (k u) (h ++ [EvUuid u])
  end.

(* ===================================================================== *)
(** ** The event loop: [asyncio.gather] over the workers *)
(* ===================================================================== *)

(** Where a coroutine stands when the event loop gets control back. *)
Inductive paused : Type :=
| PRet
| PThrow (e : exn)
| PHttp (rq : request) (k : result Response -> coro unit)
| PSleep (secs : Z) (k : coro unit).

(** Run up to the next [await] that suspends. *)
Fixpoint advance (w : world) (c : coro unit) (h : list event) : paused * list event :=
  match c with
  | Ret _ => (PRet, h)
  | Throw e => (PThrow e, h)
  | Http rq k => (PHttp rq k, h)
  | Sleep secs k => (PSleep secs k, h)
  | Log lvl msg k => advance w k (h ++ [EvLog lvl msg])
  | Time k => let t := time_now w h in advance w (k t) (h ++ [EvTime t])
  | Uuid4 k => let u := uuid4_hex w h in advance w (k u) (h ++ [EvUuid u])
  end.

(** One [worker(q, BADGE_IDS)] task. *)
Inductive task : Type :=
| Created
| AwaitHttp (it : item) (rq : request) (k : result Response -> coro unit)
| AwaitSleep (it : item) (secs : Z) (k : coro unit)
| Returned
| Failed (e : exn).

(** What the tasks share: the queue and the history, and two records kept
    for the proofs: which task took which item, in order, and which items
    had their loop body run to its end. *)
Record shared : Type := mk_shared {
  queue : list item;
  trace : list event;
  taken : list (nat * item);
  finished : list (nat * item)
}.

(** Task [i] at [while not q.empty()], run until it suspends, returns or
    raises.  [q.get()] on a queue that is not empty does not suspend. *)
Fixpoint worker (rt : runtime) (w : world) (BADGE_IDS : dict) (i : nat)
    (q : list item) (h : list event) (tk fin : list (nat * item)) : task * shared :=
  match q with
  | [] => (Returned, mk_shared [] h tk fin)
  | it :: q' =>
      let tk' := tk ++ [(i, it)] in
      match prepare rt it with
      | Raise e => (Failed e, mk_shared q' h tk' fin)
      | Ok (account, debank) =>
          match advance w (attempt rt BADGE_IDS debank account) h with
          | (PRet, h') => worker rt w BADGE_IDS i q' h' tk' (fin ++ [(i, it)])
          | (PThrow e, h') => (Failed e, mk_shared q' h' tk' fin)
          | (PHttp rq k, h') => (AwaitHttp it rq k, mk_shared q' h' tk' fin)
          | (PSleep secs k, h') => (AwaitSleep it secs k, mk_shared q' h' tk' fin)
          end
      end
  end.

(** Task [i], suspended while on item [it], goes on as [c]. *)
Definition continue (rt : runtime) (w : world) (BADGE_IDS : dict) (i : nat)
    (it : item) (c : coro unit) (sh : shared) : task * shared :=
  match advance w c (trace sh) with
  | (PRet, h') =>
      worker rt w BADGE_IDS i (queue sh) h' (taken sh) (finished sh ++ [(i, it)])
  | (PThrow e, h') => (Failed e, mk_shared (queue sh) h' (taken sh) (finished sh))
  | (PHttp rq k, h') => (AwaitHttp it rq k, mk_shared (queue sh) h' (taken sh) (finished sh))
  | (PSleep secs k, h') => (AwaitSleep it secs k, mk_shared (queue sh) h' (taken sh) (finished sh))
  end.

Record loop_state : Type := mk_state {
  tasks : list task;
  mem : shared;
  (** the first exception that left a task: what [gather] raises in [main] *)
  raised : option exn
}.

Fixpoint set_nth {A} (i : nat) (a : A) (l : list A) : list A :=
  match l, i with
  | [], _ => []
  | _ :: rest, O => a :: rest
  | b :: rest, S j => b :: set_nth j a rest
  end.

Definition record_failure (t : task) (r : option exn) : option exn :=
  match r, t with
  | None, Failed e => Some e
  | _, _ => r
  end.

Definition put_task (i : nat) (r : task * shared) (s : loop_state) : loop_state :=
  mk_state (set_nth i (fst r) (tasks s)) (snd r) (record_failure (fst r) (raised s)).

(** The event loop resumes task [i]. *)
Definition resume (rt : runtime) (w : world) (BADGE_IDS : dict) (i : nat)
    (s : loop_state) : loop_state :=
  match nth_error (tasks s) i with
  | Some Created =>
      put_task i (worker rt w BADGE_IDS i (queue (mem s)) (trace (mem s))
                    (taken (mem s)) (finished (mem s))) s
  | Some (AwaitHttp it rq k) =>
      let r := http w (trace (mem s)) rq in
      put_task i (continue rt w BADGE_IDS i it (k r)
                    (mk_shared (queue (mem s)) (trace (mem s) ++ [EvHttp rq r])
                       (taken (mem s)) (finished (mem s)))) s
  | Some (AwaitSleep it secs k) =>
      put_task i (continue rt w BADGE_IDS i it k
                    (mk_shared (queue (mem s)) (trace (mem s) ++ [EvSleep secs])
                       (taken (mem s)) (finished (mem s)))) s
  | Some Returned | Some (Failed _) | None => s
  end.

(** A schedule: the tasks in the order the event loop resumes them. *)
Definition run (rt : runtime) (w : world) (BADGE_IDS : dict) (schedule : list nat)
    (s : loop_state) : loop_state :=
  fold_left (fun s i => resume rt w BADGE_IDS i s) schedule s.

Definition is_returned (t : task) : bool :=
  match t with
  | Returned => true
  | _ => false
  end.

(** What [await asyncio.gather(...)] has for [main]. *)
Inductive outcome : Type :=
| Pending
| Completed
| Aborted (e : exn).

Definition gather (s : loop_state) : outcome :=
  match raised s with
  | Some e => Aborted e
  | None => if forallb is_returned (tasks s) then Completed else Pending
  end.

Definition start (q : list item) (h : list event) (n : nat) : loop_state :=
  mk_state (repeat Created n) (mk_shared q h [] []) None.

(** [main] with [n] workers, on the lines of [accounts.txt]. *)
Definition main_with (n : nat) (rt : runtime) (w : world) (accounts : list string)
    (schedule : list nat) : outcome * loop_state :=
  let q := format_accounts accounts in
  match exec w (badge_list rt) [] with
  | (Raise e, h) => (Aborted e, mk_state [] (mk_shared q h [] []) (Some e))
  | (Ok BADGE_IDS, h) =>
      let s := run rt w BADGE_IDS schedule (start q h n) in
      (gather s, s)
  end.

Definition main : runtime -> world -> list string -> list nat -> outcome * loop_state :=
  main_with 5.

(* ===================================================================== *)
(** ** Vocabulary of the properties *)
(* ===================================================================== *)

(** The value under ["error_msg"] when the body decodes to an object that has
    that key. *)
Definition error_field (response : Response) : option JSON :=
  match json response with
  | Some (JObj fields) => lookup "error_msg" fields
  | _ => None
  end.

(** Whether a line has a [":"] in it. *)
Fixpoint has_colon (s : string) : bool :=
  match s with
  | EmptyString => false
  | String c rest => orb (Ascii.eqb c colon) (has_colon rest)
  end.

(** A coroutine in which every response goes through [validate_response]
    before anything else is done with it: when [validate_response] refuses
    the response, the coroutine raises that very error at once. *)
Fixpoint gated {A} (rt : runtime) (c : coro A) : Prop :=
  match c with
  | Ret _ => True
  | Throw _ => True
  | Http _ k =>
      (forall response e,
          validate_response rt response = Raise e -> k (Ok response) = Throw e)
      /\ (forall r, gated rt (k r))
  | Sleep _ k => gated rt k
  | Log _ _ k => gated rt k
  | Time k => forall t, gated rt (k t)
  | Uuid4 k => forall u, gated rt (k u)
  end.

(** A coroutine out of which no exception comes, whatever it is answered. *)
Fixpoint never_throws {A} (c : coro A) : Prop :=
  match c with
  | Ret _ => True
  | Throw _ => False
  | Http _ k => forall r, never_throws (k r)
  | Sleep _ k => never_throws k
  | Log _ _ k => never_throws k
  | Time k => forall t, never_throws (k t)
  | Uuid4 k => forall u, never_throws (k u)
  end.

(** The requests of a history, oldest first. *)
Fixpoint requests_of (tr : list event) : list request :=
  match tr with
  | [] => []
  | EvHttp rq _ :: rest => rq :: requests_of rest
  | _ :: rest => requests_of rest
  end.

(** A coroutine all of whose requests satisfy [P]. *)
Fixpoint all_requests {A} (P : request -> Prop) (c : coro A) : Prop :=
  match c with
  | Ret _ => True
  | Throw _ => True
  | Http rq k => P rq /\ forall r, all_requests P (k r)
  | Sleep _ k => all_requests P k
  | Log _ _ k => all_requests P k
  | Time k => forall t, all_requests P (k t)
  | Uuid4 k => forall u, all_requests P (k u)
  end.

(** The request a [Debank] object makes for each endpoint. *)
Definition sign_v2_request (self : Debank) (addr : string) : request :=
  mk_request POST DebankApiUrl.SIGN_V2 None (Some (JObj [("id", JStr addr)]))
    (headers self) (proxies self).

Definition login_v2_request (self : Debank) (addr signature : string) : request :=
  mk_request POST DebankApiUrl.LOGIN_V2 None
    (Some (JObj [("id", JStr addr); ("signature", JStr signature)]))
    (headers self) (proxies self).

Definition can_mint_request (self : Debank) (id : JSON) : request :=
  mk_request GET DebankApiUrl.BADGE_USER_CAN_MINT (Some (JObj [("id", id)])) None
    (headers self) (proxies self).

Definition not_minted_text (rt : runtime) (account : Account) (name : JSON) : string :=
  "[" ++ address account ++ "] Badge " ++ py_str rt name ++ " can't minted".

(** What the handlers of [worker] log for an exception. *)
Definition error_text (e : exn) : string :=
  match e with
  | DebankError msg => "Debank Error: " ++ msg
  | PyError _ msg => "Error: " ++ msg
  end.

(** The history the mint loop leaves for a catalog, badge by badge in the
    order of the catalog, and how the loop ended.  For each badge: the
    can-mint query; when the flag of its response is false, an error line
    and a sleep of 2; when it is true, the call of [badge_mint], which raises
    [get_json_error] with nothing sent.  The loop stops at the first query
    that raises and at the first badge that may be minted. *)
Inductive badge_steps (rt : runtime) (debank : Debank) (account : Account) :
    dict -> list event -> result unit -> Prop :=
| steps_done :
    badge_steps rt debank account [] [] (Ok tt)
| steps_skipped id name rest r flag tr res :
    validate_response rt r = Ok r ->
    data_field r "can_mint" = Ok flag ->
    py_truthy flag = false ->
    badge_steps rt debank account rest tr res ->
    badge_steps rt debank account ((id, name) :: rest)
      (EvHttp (can_mint_request debank id) (Ok r)
       :: EvLog ERROR (not_minted_text rt account name)
       :: EvSleep 2 :: tr) res
| steps_query_failed id name rest r e :
    (let? response := rbind r (validate_response rt) in
     data_field response "can_mint") = Raise e ->
    badge_steps rt debank account ((id, name) :: rest)
      [EvHttp (can_mint_request debank id) r] (Raise e)
| steps_mint_raised id name rest r flag :
    validate_response rt r = Ok r ->
    data_field r "can_mint" = Ok flag ->
    py_truthy flag = true ->
    badge_steps rt debank account ((id, name) :: rest)
      [EvHttp (can_mint_request debank id) (Ok r)] (Raise get_json_error).

(** The line logged when the [try] body ended with an exception. *)
Definition error_log (res : result unit) : list event :=
  match res with
  | Ok _ => []
  | Raise e => [EvLog ERROR (error_text e)]
  end.

(** [d[k]] on a dict: the value of the entry whose key equals [k]. *)
Fixpoint dict_get (k : JSON) (d : dict) : option JSON :=
  match d with
  | [] => None
  | (k', v) :: rest => if key_eqb k' k then Some v else dict_get k rest
  end.

(** The [(id, name)] pair of one badge of the response. *)
Definition badge_entry (badge : JSON) : result (JSON * JSON) :=
  let? id := py_getitem badge "id" in
  let? name := py_getitem badge "name" in
  Ok (id, name).

(** The name of the last badge of the list whose id equals [id]. *)
Fixpoint last_named (id : JSON) (entries : list (JSON * JSON)) : option JSON :=
  match entries with
  | [] => None
  | (k, name) :: rest =>
      match last_named id rest with
      | Some later => Some later
      | None => if key_eqb k id then Some name else None
      end
  end.

(** No two ids of the list are equal. *)
Fixpoint distinct_keys (ks : list JSON) : bool :=
  match ks with
  | [] => true
  | k :: rest => andb (forallb (fun k' => negb (key_eqb k' k)) rest) (distinct_keys rest)
  end.

Definition badge_list_request (rt : runtime) : request :=
  mk_request GET DebankApiUrl.BADGE_LIST None None (HEADERS rt) None.

(** The [try] body of [worker] for one account. *)
Definition try_body (rt : runtime) (BADGE_IDS : dict) (debank : Debank)
    (account : Account) : coro unit :=
  do debank' <- login rt debank account;
  mint_loop rt debank' account BADGE_IDS.

(** Whether the statements before the [try] go through for an item. *)
Definition prepared (rt : runtime) (entry : nat * item) : bool :=
  match prepare rt (snd entry) with
  | Ok _ => true
  | Raise _ => false
  end.

(** The item task [i] is on while suspended. *)
Definition flight (i : nat) (t : task) : list (nat * item) :=
  match t with
  | AwaitHttp it _ _ => [(i, it)]
  | AwaitSleep it _ _ => [(i, it)]
  | _ => []
  end.

Fixpoint in_flight (i : nat) (ts : list task) : list (nat * item) :=
  match ts with
  | [] => []
  | t :: rest => flight i t ++ in_flight (S i) rest
  end.

(** A suspended task is inside the [try] statement: what it goes on with is
    under the handlers of [worker]. *)
Definition guarded (t : task) : Prop :=
  match t with
  | AwaitHttp _ _ k => exists k0, k = fun r => try_except (k0 r) on_error
  | AwaitSleep _ _ k => exists k0, k = try_except k0 on_error
  | _ => True
  end.

(** What holds of every state the event loop reaches from [start q0 h n]. *)
Record invariant (rt : runtime) (q0 : list item) (s : loop_state) : Prop := mk_invariant {
  (** the items taken so far, in order, and the queue make up the input *)
  inv_queue : map snd (taken (mem s)) ++ queue (mem s) = q0;
  (** a taken item whose preparation went through is finished or in flight *)
  inv_count :
    Permutation (filter (prepared rt) (taken (mem s)))
      (finished (mem s) ++ in_flight 0 (tasks s));
  inv_guarded : Forall guarded (tasks s);
  (** a task returns only on an empty queue, and the queue never grows *)
  inv_returned : In Returned (tasks s) -> queue (mem s) = [];
  (** a task fails only in the statements before the [try] *)
  inv_failed :
    forall i e, nth_error (tasks s) i = Some (Failed e) ->
                exists it, In (i, it) (taken (mem s)) /\ prepare rt it = Raise e;
  inv_unprepared :
    forall i it, In (i, it) (taken (mem s)) -> prepared rt (i, it) = false ->
                 exists e, nth_error (tasks s) i = Some (Failed e);
  inv_raised :
    forall e, raised s = Some e -> exists i, nth_error (tasks s) i = Some (Failed e);
  inv_not_raised :
    raised s = None -> forall i e, nth_error (tasks s) i <> Some (Failed e)
}.

(** What one pass of task [i] through the loop does to the shared state:
    [new] are the items it took and [done] those of them it finished;
    [held] is the item it was on when resumed, if any. *)
Definition pass (rt : runtime) (i : nat) (before : shared) (held : list (nat * item))
    (r : task * shared) : Prop :=
  exists new done,
    taken (snd r) = taken before ++ map (pair i) new
    /\ new ++ queue (snd r) = queue before
    /\ finished (snd r) = finished before ++ map (pair i) done
    /\ guarded (fst r)
    /\ (fst r = Returned -> queue (snd r) = [])
    /\ Permutation (held ++ filter (prepared rt) (map (pair i) new))
         (map (pair i) done ++ flight i (fst r))
    /\ (forall e, fst r = Failed e -> exists it, In it new /\ prepare rt it = Raise e)
    /\ (forall it, In it new -> prepared rt (i, it) = false -> exists e, fst r = Failed e).

Definition is_JStr (value : JSON) : bool :=
  match value with
  | JStr _ => true
  | _ => false
  end.


(** The suspensions of one [try] statement: two for [login] and three for
    each badge. *)
Definition attempt_bound (BADGE_IDS : dict) : nat := 2 + 3 * List.length BADGE_IDS.




(** The events a run added to history [h], given the history [h'] it left. *)
Definition added (h h' : list event) : list event := skipn (List.length h) h'.

(** [a] is a value [c] can return, for some answers to what it asks. *)
Fixpoint returns {A} (c : coro A) (a : A) : Prop :=
  match c with
  | Ret a' => a' = a
  | Throw _ => False
  | Http _ k => exists r, returns (k r) a
  | Sleep _ k => returns k a
  | Log _ _ k => returns k a
  | Time k => exists t, returns (k t) a
  | Uuid4 k => exists u, returns (k u) a
  end.

(** [c] makes at most [n] requests, whatever it is answered. *)
Fixpoint requests_bounded {A} (n : nat) (c : coro A) : Prop :=
  match c with
  | Ret _ => True
  | Throw _ => True
  | Http _ k => match n with O => False | S m => forall r, requests_bounded m (k r) end
  | Sleep _ k => requests_bounded n k
  | Log _ _ k => requests_bounded n k
  | Time k => forall t, requests_bounded n (k t)
  | Uuid4 k => forall u, requests_bounded n (k u)
  end.

(** The method and the address of the four endpoints [worker] calls. *)
Definition worker_endpoints : list (http_method * string) :=
  [(POST, DebankApiUrl.SIGN_V2); (POST, DebankApiUrl.LOGIN_V2);
   (GET, DebankApiUrl.BADGE_USER_CAN_MINT); (GET, DebankApiUrl.BADGE_MINT)].

(** The proxy a client is built with for the proxy field of a queue item. *)
Definition proxy_of (proxy : option string) : option string :=
  match proxy with
  | Some p => if String.eqb p "" then None else Some p
  | None => None
  end.

(* ===================================================================== *)
(** ** Concrete runtimes, worlds and inputs for the examples *)
(* ===================================================================== *)

Module Sample.

Definition is_hex (c : ascii) : bool :=
  let n := nat_of_ascii c in
  orb (andb (48 <=? n)%nat (n <=? 57)%nat)
      (orb (andb (65 <=? n)%nat (n <=? 70)%nat) (andb (97 <=? n)%nat (n <=? 102)%nat)).

(** A key is 64 hexadecimal digits; anything else is refused, as
    [Account.from_key] refuses it. *)
Definition from_key (private_key : string) : result Account :=
  if andb (Nat.eqb (String.length private_key) 64)
          (forallb is_hex (list_ascii_of_string private_key))
  then Ok (mk_account ("0xAbCd" ++ String.substring 0 36 private_key) private_key)
  else Raise (PyError "ValueError" "The private key must be exactly 32 bytes long").

Definition sign_message (account : Account) (message : JSON) : result string :=
  match message with
  | JStr t => Ok ("sig(" ++ key account ++ "," ++ t ++ ")")%string
  | _ => Raise (TypeError "expected a str")
  end.

Definition quote : string := String (ascii_of_nat 34) EmptyString.

(** [json.dumps] on values whose strings need no escaping. *)
Fixpoint dumps (value : JSON) : string :=
  match value with
  | JNull => "null"
  | JBool true => "true"
  | JBool false => "false"
  | JInt n => NilZero.string_of_int (Z.to_int n)
  | JStr s => quote ++ s ++ quote
  | JArr items => "[" ++ String.concat ", " (map dumps items) ++ "]"
  | JObj fields =>
      "{" ++ String.concat ", "
               (map (fun kv => match kv with
                               | (k, v) => quote ++ k ++ quote ++ ": " ++ dumps v
                               end) fields) ++ "}"
  end%string.

(** [str(x)] on the values that have no quotes in it. *)
Definition repr (value : JSON) : string :=
  match value with
  | JNull => "None"
  | JBool true => "True"
  | JBool false => "False"
  | JInt n => NilZero.string_of_int (Z.to_int n)
  | _ => "<object>"
  end.

Definition rt : runtime :=
  mk_runtime [("user-agent", "Mozilla/5.0")]
    repr dumps from_key sign_message (fun _ => None).

Definition debank0 : Debank := mk_Debank (HEADERS rt) None.

Definition key1 : string :=
  "1111111111111111111111111111111111111111111111111111111111111111".
Definition key2 : string :=
  "2222222222222222222222222222222222222222222222222222222222222222".
Definition key3 : string :=
  "3333333333333333333333333333333333333333333333333333333333333333".
Definition key4 : string :=
  "4444444444444444444444444444444444444444444444444444444444444444".
Definition key5 : string :=
  "5555555555555555555555555555555555555555555555555555555555555555".
Definition key6 : string :=
  "6666666666666666666666666666666666666666666666666666666666666666".

Definition ok (body : JSON) : result Response :=
  Ok (mk_response 200 "" (Some body)).

Definition data (field : string) (value : JSON) : JSON :=
  JObj [("data", JObj [(field, value)])].

(** A service that lets everybody in and lets everybody mint. *)
Definition generous (h : list event) (rq : request) : result Response :=
  if String.eqb (rq_url rq) DebankApiUrl.SIGN_V2 then ok (data "text" (JStr "sign me"))
  else if String.eqb (rq_url rq) DebankApiUrl.LOGIN_V2 then ok (data "session_id" (JStr "s-1"))
  else if String.eqb (rq_url rq) DebankApiUrl.BADGE_USER_CAN_MINT then ok (data "can_mint" (JBool true))
  else if String.eqb (rq_url rq) DebankApiUrl.BADGE_LIST then
    ok (data "badge_list" (JArr [JObj [("id", JInt 1); ("name", JStr "Genesis")]]))
  else ok (JObj []).

Definition w : world := mk_world generous (fun _ => 1700000000%Z) (fun _ => "c0ffee").

(** The same service answering every call with status 500. *)
Definition w500 : world :=
  mk_world (fun _ _ => Ok (mk_response 500 "Internal Server Error"
                             (Some (data "badge_list" (JArr [])))))
    (fun _ => 0%Z) (fun _ => "").

(** The id of the account a request is made for. *)
Definition request_id (rq : request) : string :=
  match rq_json rq with
  | Some (JObj (("id", JStr a) :: _)) => a
  | _ => ""
  end.

(** The generous service, which however refuses the login of the account
    of [key1]. *)
Definition picky (h : list event) (rq : request) : result Response :=
  if andb (String.eqb (rq_url rq) DebankApiUrl.LOGIN_V2)
          (String.eqb (request_id rq) "0xabcd111111111111111111111111111111111111")
  then ok (JObj [("error_msg", JStr "invalid signature")])
  else generous h rq.

Definition w_picky : world := mk_world picky (fun _ => 1700000000%Z) (fun _ => "c0ffee").

Definition genesis : dict := [(JInt 1, JStr "Genesis")].

Definition account1 : Account :=
  mk_account "0xAbCd111111111111111111111111111111111111" key1.

(** An [accounts.txt] whose first line is not a key. *)
Definition accounts_bad : list string :=
  ["abc123"; key1; key2; key3; key4; key5; key6].

(** The object and the history after [account1] logged in. *)
Definition after_login : Debank * list event :=
  Eval vm_compute in
    match exec w (login rt debank0 account1) [] with
    | (Ok self', h) => (self', h)
    | (Raise _, h) => (debank0, h)
    end.

End Sample.

(* ===================================================================== *)
(** * Properties *)
(* ===================================================================== *)

(** ** [validate_response] *)

Lemma validate_response_not_200 (rt : runtime) (response : Response) :
  status_code response <> 200%Z ->
  validate_response rt response = Raise (DebankError ("Debank return " ++ text response)).
Proof.
  intros Hs. unfold validate_response.
  destruct (Z.eqb_spec (status_code response) 200) as [E | _]; [contradiction | reflexivity].
Qed.

Lemma validate_response_200 (rt : runtime) (response : Response) :
  status_code response = 200%Z ->
  validate_response rt response =
    (let? err_json := response_json response in
     let? found := py_contains "error_msg" err_json in
     if found then
       let? msg := py_getitem err_json "error_msg" in
       Raise (DebankError ("Debank return " ++ py_str rt msg))
     else Ok response).
Proof.
  intros Hs. unfold validate_response. rewrite Hs. reflexivity.
Qed.

(** What [validate_response] does on a body that decodes to an object. *)
Lemma validate_response_object (rt : runtime) (response : Response) fields :
  status_code response = 200%Z ->
  json response = Some (JObj fields) ->
  validate_response rt response =
    match lookup "error_msg" fields with
    | Some msg => Raise (DebankError ("Debank return " ++ py_str rt msg))
    | None => Ok response
    end.
Proof.
  intros Hs Hj. rewrite validate_response_200 by assumption.
  unfold response_json. rewrite Hj. simpl.
  destruct (lookup "error_msg" fields); reflexivity.
Qed.

(** The only value [validate_response] returns is its argument. *)
Lemma validate_response_same (rt : runtime) (response response' : Response) :
  validate_response rt response = Ok response' -> response' = response.
Proof.
  unfold validate_response.
  destruct (negb (status_code response =? 200)%Z); [discriminate |].
  destruct (response_json response) as [body | e]; simpl; [| discriminate].
  destruct (py_contains "error_msg" body) as [[|] | e]; simpl; try discriminate.
  - destruct (py_getitem body "error_msg"); discriminate.
  - congruence.
Qed.

(** A returned response had status 200 and a body that decodes. *)
Lemma validate_response_ok (rt : runtime) (response response' : Response) :
  validate_response rt response = Ok response' ->
  status_code response = 200%Z /\
  exists body, json response = Some body /\ py_contains "error_msg" body = Ok false.
Proof.
  unfold validate_response.
  destruct (Z.eqb_spec (status_code response) 200) as [E | N]; simpl; [| discriminate].
  unfold response_json. destruct (json response) as [body |]; simpl; [| discriminate].
  destruct (py_contains "error_msg" body) as [[|] | e] eqn:Hc; simpl; try discriminate.
  - destruct (py_getitem body "error_msg"); discriminate.
  - intros _. split; [assumption |]. exists body. split; auto.
Qed.

Lemma validate_response_DebankError_iff (rt : runtime) (response : Response) :
  (exists msg, validate_response rt response = Raise (DebankError msg)) <->
  (status_code response <> 200%Z \/ error_field response <> None).
Proof.
  destruct (Z.eq_dec (status_code response) 200) as [E | N].
  - rewrite validate_response_200 by assumption.
    unfold error_field, response_json.
    destruct (json response) as [[ | b | n | s | items | fields] |]; simpl.
    all: try (split; [intros [msg H]; discriminate | intros [H | H]; congruence]).
    + (* a str: [in] may hold, the subscript raises TypeError *)
      destruct (str_contains "error_msg" s); simpl;
        (split; [intros [msg H]; discriminate | intros [H | H]; congruence]).
    + destruct (existsb (is_str "error_msg") items); simpl;
        (split; [intros [msg H]; discriminate | intros [H | H]; congruence]).
    + destruct (lookup "error_msg" fields) as [v |]; simpl.
      * split; [intros _; right; discriminate | intros _; eexists; reflexivity].
      * split; [intros [msg H]; discriminate | intros [H | H]; congruence].
  - rewrite validate_response_not_200 by assumption.
    split; [intros _; left; assumption | intros _; eexists; reflexivity].
Qed.

(** C1 (as amended): [validate_response] raises [DebankError] exactly when the
    status is not 200 or the body decodes to an object with an ["error_msg"]
    key; the error carries the response text in the first case and the value
    under ["error_msg"] in the second; a response with status 200 whose body
    decodes to an object without that key is returned as it is. *)
Theorem C1_validate_response (rt : runtime) (response : Response) :
  ((exists msg, validate_response rt response = Raise (DebankError msg)) <->
   (status_code response <> 200%Z \/ error_field response <> None))
  /\ (status_code response <> 200%Z ->
      validate_response rt response =
        Raise (DebankError ("Debank return " ++ text response)))
  /\ (forall msg, status_code response = 200%Z -> error_field response = Some msg ->
      validate_response rt response =
        Raise (DebankError ("Debank return " ++ py_str rt msg)))
  /\ (forall fields, status_code response = 200%Z ->
      json response = Some (JObj fields) -> lookup "error_msg" fields = None ->
      validate_response rt response = Ok response).
Proof.
  split; [apply validate_response_DebankError_iff |].
  split; [apply validate_response_not_200 |].
  split.
  - intros msg Hs He. unfold error_field in He.
    destruct (json response) as [[ | | | | | fields] |] eqn:Hj; try discriminate.
    rewrite (validate_response_object rt response Hs Hj), He. reflexivity.
  - intros fields Hs Hj Hl.
    rewrite (validate_response_object rt response Hs Hj), Hl. reflexivity.
Qed.

(** An object body without the key, returned as it is; an object body with
    the key and a 404, each raising [DebankError] with its payload. *)
Lemma C1_validate_response_witness :
  validate_response Sample.rt (mk_response 200 "{}" (Some (JObj []))) =
    Ok (mk_response 200 "{}" (Some (JObj [])))
  /\ validate_response Sample.rt
       (mk_response 200 "" (Some (JObj [("error_msg", JStr "user not found")]))) =
     Raise (DebankError "Debank return user not found")
  /\ validate_response Sample.rt (mk_response 404 "Not Found" None) =
     Raise (DebankError "Debank return Not Found").
Proof.
  split; [| split].
  - apply (proj2 (proj2 (proj2 (C1_validate_response Sample.rt
             (mk_response 200 "{}" (Some (JObj []))))))) with (fields := []);
      reflexivity.
  - apply (proj1 (proj2 (proj2 (C1_validate_response Sample.rt
             (mk_response 200 "" (Some (JObj [("error_msg", JStr "user not found")])))))))
      with (msg := JStr "user not found"); reflexivity.
  - apply (proj1 (proj2 (C1_validate_response Sample.rt (mk_response 404 "Not Found" None)))).
    simpl. discriminate.
Defined.

(** C1 as stated fails: a response with status 200 and no ["error_msg"] field
    is not always returned.  A body that does not decode makes
    [response.json()] raise, and on a body that decodes to [null] the [in]
    test raises [TypeError]. *)
Lemma C1_counterexample :
  (status_code (mk_response 200 "<html></html>" None) = 200%Z
   /\ error_field (mk_response 200 "<html></html>" None) = None
   /\ validate_response Sample.rt (mk_response 200 "<html></html>" None) =
      Raise JSONDecodeError)
  /\ (status_code (mk_response 200 "null" (Some JNull)) = 200%Z
      /\ error_field (mk_response 200 "null" (Some JNull)) = None
      /\ validate_response Sample.rt (mk_response 200 "null" (Some JNull)) =
         Raise (TypeError "argument of type 'NoneType' is not iterable")).
Proof. repeat split. Qed.

(** C10: on a status other than 200 the result is [DebankError] with the
    response text whatever decoding the body would give, a body that does not
    decode included. *)
Theorem C10_no_decode_unless_200 (rt : runtime) (response : Response) :
  status_code response <> 200%Z ->
  forall decoded : option JSON,
    validate_response rt (mk_response (status_code response) (text response) decoded) =
      Raise (DebankError ("Debank return " ++ text response)).
Proof.
  intros Hs decoded. apply (validate_response_not_200 rt
    (mk_response (status_code response) (text response) decoded)). exact Hs.
Qed.

Lemma C10_no_decode_unless_200_witness :
  validate_response Sample.rt (mk_response 502 "<html>Bad Gateway</html>" None) =
    Raise (DebankError "Debank return <html>Bad Gateway</html>").
Proof.
  apply (@C10_no_decode_unless_200 Sample.rt
           (mk_response 502 "<html>Bad Gateway</html>" None)).
  simpl. discriminate.
Defined.

(** ** Reading the accounts *)

Lemma prefix_colon (c : ascii) (rest : string) :
  String.prefix ":" (String c rest) = Ascii.eqb c colon.
Proof.
  cbn [String.prefix]. destruct (ascii_dec ":" c) as [E | N].
  - subst c. destruct rest; reflexivity.
  - destruct (Ascii.eqb_spec c colon) as [E | _]; [unfold colon in E; congruence | reflexivity].
Qed.

Lemma str_contains_colon (s : string) : str_contains ":" s = has_colon s.
Proof.
  induction s as [| c rest IH]; [reflexivity |].
  cbn [str_contains has_colon]. rewrite prefix_colon, IH.
  destruct (Ascii.eqb c colon); reflexivity.
Qed.

(** A line with a colon is cut at its first one. *)
Lemma split_colon_first (s : string) :
  has_colon s = true ->
  exists before after,
    s = (before ++ ":" ++ after)%string /\ has_colon before = false /\
    split_colon s = [before; after].
Proof.
  induction s as [| c rest IH]; simpl; [discriminate |].
  destruct (Ascii.eqb_spec c colon) as [E | N]; simpl.
  - intros _. exists EmptyString, rest. subst c. repeat split.
  - intros H. destruct (IH H) as (before & after & Hs & Hb & Hsplit).
    exists (String c before), after. rewrite Hsplit. simpl.
    destruct (Ascii.eqb_spec c colon) as [E | _]; [contradiction |].
    repeat split; [rewrite Hs; reflexivity | exact Hb].
Qed.

(** C9: a line with a colon gives the text before its first colon as secret
    and all the rest as proxy; a line without one gives the line and [None]. *)
Theorem C9_format_account (line : string) :
  (has_colon line = true ->
   exists before after,
     line = (before ++ ":" ++ after)%string /\ has_colon before = false /\
     format_account line = [Some before; Some after])
  /\ (has_colon line = false -> format_account line = [Some line; None]).
Proof.
  unfold format_account. rewrite str_contains_colon. split; intros H; rewrite H.
  - destruct (split_colon_first line H) as (before & after & Hs & Hb & Hsplit).
    exists before, after. rewrite Hsplit. repeat split; assumption.
  - reflexivity.
Qed.

(** The remainder keeps its own colons. *)
Lemma C9_format_account_witness :
  (exists before after,
     "0xabc:http://user:pw@10.0.0.1:8080" = (before ++ ":" ++ after)%string /\
     has_colon before = false /\
     format_account "0xabc:http://user:pw@10.0.0.1:8080" = [Some before; Some after])
  /\ format_account "0xdef" = [Some "0xdef"; None].
Proof.
  split.
  - exact (proj1 (C9_format_account "0xabc:http://user:pw@10.0.0.1:8080") eq_refl).
  - exact (proj2 (C9_format_account "0xdef") eq_refl).
Defined.

Example format_account_proxy_with_colons :
  format_account "0xabc:http://user:pw@10.0.0.1:8080" =
    [Some "0xabc"; Some "http://user:pw@10.0.0.1:8080"].
Proof. reflexivity. Qed.

(** ** Running coroutines *)

Lemma exec_bind {A B} (w : world) (c : coro A) (f : A -> coro B) (h : list event) :
  exec w (bind c f) h =
    match exec w c h with
    | (Ok a, h') => exec w (f a) h'
    | (Raise e, h') => (Raise e, h')
    end.
Proof.
  revert h. induction c as [a | e | rq k IH | secs k IH | lvl msg k IH | k IH | k IH];
    intros h; simpl; auto.
Qed.

Lemma exec_lift {A} (w : world) (r : result A) (h : list event) :
  exec w (lift r) h = (r, h).
Proof. destruct r; reflexivity. Qed.

Lemma exec_try_except {A} (w : world) (c : coro A) (handler : exn -> coro A)
    (h : list event) :
  exec w (try_except c handler) h =
    match exec w c h with
    | (Ok a, h') => (Ok a, h')
    | (Raise e, h') => exec w (handler e) h'
    end.
Proof.
  revert h. induction c as [a | e | rq k IH | secs k IH | lvl msg k IH | k IH | k IH];
    intros h; simpl; auto.
Qed.

(** A run only adds to the history. *)
Lemma exec_extends {A} (w : world) (c : coro A) (h : list event) :
  exists tr, snd (exec w c h) = h ++ tr.
Proof.
  revert h. induction c as [a | e | rq k IH | secs k IH | lvl msg k IH | k IH | k IH];
    intros h; simpl.
  1, 2: exists []; symmetry; apply app_nil_r.
  - destruct (IH (http w h rq) (h ++ [EvHttp rq (http w h rq)])) as [tr Htr].
    eexists. rewrite Htr, <- app_assoc. reflexivity.
  - destruct (IH (h ++ [EvSleep secs])) as [tr Htr].
    eexists. rewrite Htr, <- app_assoc. reflexivity.
  - destruct (IH (h ++ [EvLog lvl msg])) as [tr Htr].
    eexists. rewrite Htr, <- app_assoc. reflexivity.
  - destruct (IH (time_now w h) (h ++ [EvTime (time_now w h)])) as [tr Htr].
    eexists. rewrite Htr, <- app_assoc. reflexivity.
  - destruct (IH (uuid4_hex w h) (h ++ [EvUuid (uuid4_hex w h)])) as [tr Htr].
    eexists. rewrite Htr, <- app_assoc. reflexivity.
Qed.

(** ** The validation gate *)

Lemma gated_bind {A B} (rt : runtime) (c : coro A) (f : A -> coro B) :
  gated rt c -> (forall a, gated rt (f a)) -> gated rt (bind c f).
Proof.
  intros Hc Hf.
  induction c as [a | e | rq k IH | secs k IH | lvl msg k IH | k IH | k IH]; simpl in *; auto.
  destruct Hc as [Hthrow Hk]. split.
  - intros response e Hv. rewrite (Hthrow response e Hv). reflexivity.
  - intros r. apply IH, Hk.
Qed.

Lemma gated_lift {A} (rt : runtime) (r : result A) : gated rt (lift r).
Proof. destruct r; exact I. Qed.

(** A request whose response is handed to [validate_response]. *)
Lemma gated_validated (rt : runtime) (self : Debank) (m : http_method) (url : string)
    (params body : option JSON) :
  gated rt (do response <- client_request self m url params body;
            lift (validate_response rt response)).
Proof.
  simpl. split.
  - intros response e Hv. simpl. rewrite Hv. reflexivity.
  - intros [response | e]; simpl; [apply gated_lift | exact I].
Qed.

Lemma gated_login (rt : runtime) (self : Debank) (account : Account) :
  gated rt (login rt self account).
Proof.
  unfold login.
  apply gated_bind; [apply gated_validated | intros r1].
  apply gated_bind; [apply gated_lift | intros t].
  apply gated_bind; [apply gated_lift | intros sig].
  apply gated_bind; [apply gated_validated | intros r2].
  apply gated_bind; [apply gated_lift | intros sid].
  simpl. intros now u. exact I.
Qed.

Lemma gated_is_can_mint_bage (rt : runtime) (self : Debank) (id : JSON) :
  gated rt (is_can_mint_bage rt self id).
Proof.
  unfold is_can_mint_bage.
  apply gated_bind; [apply gated_validated | intros r; apply gated_lift].
Qed.

Lemma gated_mint_loop (rt : runtime) (debank : Debank) (account : Account) (items : dict) :
  gated rt (mint_loop rt debank account items).
Proof.
  induction items as [| [id name] rest IH]; [exact I |].
  cbn [mint_loop].
  apply gated_bind; [apply gated_is_can_mint_bage | intros flag].
  apply gated_bind.
  - destruct (py_truthy flag).
    + exact I.
    + exact I.
  - intros _. exact IH.
Qed.

(** C5 (as amended): every call made through a [Debank] object -- the five
    endpoint methods, and [login], [is_can_mint_bage] and the mint loop built
    on them -- hands its response to [validate_response] before the body is
    used. *)
Theorem C5_client_calls_gated (rt : runtime) (self : Debank) (account : Account)
    (id : JSON) (addr signature : string) (items : dict) :
  gated rt (refcode_track rt self)
  /\ gated rt (badge_user_can_mint rt self id)
  /\ gated rt (badge_mint rt self id)
  /\ gated rt (sign_v2 rt self addr)
  /\ gated rt (login_v2 rt self addr signature)
  /\ gated rt (login rt self account)
  /\ gated rt (is_can_mint_bage rt self id)
  /\ gated rt (mint_loop rt self account items).
Proof.
  split; [apply gated_validated |].
  split; [apply gated_validated |].
  split; [exact I |].
  split; [apply gated_validated |].
  split; [apply gated_validated |].
  split; [apply gated_login |].
  split; [apply gated_is_can_mint_bage | apply gated_mint_loop].
Qed.

(** C5 as stated fails for the badge-list call: [badge_list] reads the body
    of a response that [validate_response] refuses.  The service answers with
    status 500, and [badge_list] returns the (empty) catalog of that body. *)
Lemma C5_counterexample :
  validate_response Sample.rt
    (mk_response 500 "Internal Server Error"
       (Some (Sample.data "badge_list" (JArr [])))) =
    Raise (DebankError "Debank return Internal Server Error")
  /\ fst (exec Sample.w500 (badge_list Sample.rt) []) = Ok []
  /\ ~ gated Sample.rt (badge_list Sample.rt).
Proof.
  split; [reflexivity | split; [reflexivity |]].
  intros [H _].
  specialize (H (mk_response 500 "Internal Server Error"
                   (Some (Sample.data "badge_list" (JArr []))))
                (DebankError "Debank return Internal Server Error") eq_refl).
  discriminate H.
Qed.

(** ** [login] *)

(** An endpoint method: one request, and [validate_response] on what came. *)
Lemma exec_validated (rt : runtime) (w : world) (self : Debank) (m : http_method)
    (url : string) (params body : option JSON) (h : list event) :
  let rq := mk_request m url params body (headers self) (proxies self) in
  exec w (do response <- client_request self m url params body;
          lift (validate_response rt response)) h =
    (rbind (http w h rq) (validate_response rt), h ++ [EvHttp rq (http w h rq)]).
Proof.
  simpl. destruct (http w h _) as [response | e]; simpl; [apply exec_lift | reflexivity].
Qed.

(** What an endpoint method returns is the response it got, validated. *)
Lemma validated_ok (rt : runtime) (r : result Response) (response : Response) :
  rbind r (validate_response rt) = Ok response ->
  r = Ok response /\ validate_response rt response = Ok response.
Proof.
  destruct r as [response0 | e]; simpl; [| discriminate].
  intros H. pose proof (validate_response_same rt response0 H) as E. subst response0.
  split; [reflexivity | exact H].
Qed.

Lemma get_header_set_header (name value : string) (hs : list (string * string)) :
  get_header name (set_header name value hs) = Some value.
Proof.
  induction hs as [| entry rest IH]; simpl.
  - unfold same_header. simpl. rewrite String.eqb_refl. reflexivity.
  - destruct (same_header name entry) eqn:E; simpl.
    + unfold same_header. simpl. rewrite String.eqb_refl. reflexivity.
    + rewrite E. exact IH.
Qed.

Lemma all_requests_bind {A B} (P : request -> Prop) (c : coro A) (f : A -> coro B) :
  all_requests P c -> (forall a, all_requests P (f a)) -> all_requests P (bind c f).
Proof.
  intros Hc Hf.
  induction c as [a | e | rq k IH | secs k IH | lvl msg k IH | k IH | k IH]; simpl in *; auto.
  destruct Hc as [Hrq Hk]. split; [exact Hrq | intros r; apply IH, Hk].
Qed.

Lemma all_requests_lift {A} (P : request -> Prop) (r : result A) : all_requests P (lift r).
Proof. destruct r; exact I. Qed.

Lemma requests_of_app (tr1 tr2 : list event) :
  requests_of (tr1 ++ tr2) = requests_of tr1 ++ requests_of tr2.
Proof.
  induction tr1 as [| ev rest IH]; [reflexivity |].
  destruct ev; simpl; rewrite IH; reflexivity.
Qed.

(** The requests of a run are requests of the coroutine. *)
Lemma all_requests_exec {A} (P : request -> Prop) (w : world) (c : coro A)
    (h tr : list event) :
  all_requests P c -> snd (exec w c h) = h ++ tr -> Forall P (requests_of tr).
Proof.
  revert h tr.
  induction c as [a | e | rq k IH | secs k IH | lvl msg k IH | k IH | k IH];
    intros h tr Hc Hx; simpl in *.
  1, 2: rewrite <- (app_nil_r h) in Hx at 1; apply app_inv_head in Hx; subst tr; constructor.
  - destruct Hc as [Hrq Hk].
    destruct (exec_extends w (k (http w h rq)) (h ++ [EvHttp rq (http w h rq)])) as [tr' Htr'].
    rewrite Htr', <- app_assoc in Hx. apply app_inv_head in Hx. subst tr.
    simpl. constructor; [exact Hrq |]. eapply IH; [apply Hk | exact Htr'].
  - destruct (exec_extends w k (h ++ [EvSleep secs])) as [tr' Htr'].
    rewrite Htr', <- app_assoc in Hx. apply app_inv_head in Hx. subst tr.
    simpl. eapply IH; [exact Hc | exact Htr'].
  - destruct (exec_extends w k (h ++ [EvLog lvl msg])) as [tr' Htr'].
    rewrite Htr', <- app_assoc in Hx. apply app_inv_head in Hx. subst tr.
    simpl. eapply IH; [exact Hc | exact Htr'].
  - destruct (exec_extends w (k (time_now w h)) (h ++ [EvTime (time_now w h)])) as [tr' Htr'].
    rewrite Htr', <- app_assoc in Hx. apply app_inv_head in Hx. subst tr.
    simpl. eapply IH; [apply Hc | exact Htr'].
  - destruct (exec_extends w (k (uuid4_hex w h)) (h ++ [EvUuid (uuid4_hex w h)])) as [tr' Htr'].
    rewrite Htr', <- app_assoc in Hx. apply app_inv_head in Hx. subst tr.
    simpl. eapply IH; [apply Hc | exact Htr'].
Qed.

Lemma all_requests_validated (P : request -> Prop) (rt : runtime) (self : Debank)
    (m : http_method) (url : string) (params body : option JSON) :
  P (mk_request m url params body (headers self) (proxies self)) ->
  all_requests P (do response <- client_request self m url params body;
                  lift (validate_response rt response)).
Proof.
  intros HP. simpl. split; [exact HP |].
  intros [response | e]; simpl; [apply all_requests_lift | exact I].
Qed.

(** Every request of the mint loop carries the headers and the proxy of the
    object the loop runs on. *)
Lemma all_requests_mint_loop (rt : runtime) (debank : Debank) (account : Account)
    (items : dict) :
  all_requests (fun rq => rq_headers rq = headers debank /\ rq_proxies rq = proxies debank)
    (mint_loop rt debank account items).
Proof.
  induction items as [| [id name] rest IH]; [exact I |].
  cbn [mint_loop].
  apply all_requests_bind.
  - unfold is_can_mint_bage. apply all_requests_bind.
    + apply all_requests_validated. split; reflexivity.
    + intros r. apply all_requests_lift.
  - intros flag. apply all_requests_bind.
    + destruct (py_truthy flag); [| exact I].
      exact I.
    + intros _. exact IH.
Qed.

(** C4: after a [login] that returned, the object carries the header
    ["account"] holding [json.dumps] of: [random_at], the time read then;
    [random_id], the [uuid4] drawn then; [session_id], the value under
    [data.session_id] of the login response; [user_addr], the lowercased
    address, which is also the [id] of the sign and of the login request;
    [wallet_type], ["metamask"]; [is_verified], [True].  Every request the
    mint loop then makes on that object carries it. *)
Theorem C4_login_session_header (rt : runtime) (w : world) (self self' : Debank)
    (account : Account) (h h' : list event) :
  exec w (login rt self account) h = (Ok self', h') ->
  exists (r1 r2 : Response) (challenge : JSON) (signature : string) (session_id : JSON),
    let addr := lower (address account) in
    let h2 := h ++ [EvHttp (sign_v2_request self addr) (Ok r1);
                    EvHttp (login_v2_request self addr signature) (Ok r2)] in
    let now := time_now w h2 in
    let random_id := uuid4_hex w (h2 ++ [EvTime now]) in
    let header :=
      json_dumps rt
        (JObj [("random_at", JInt now);
               ("random_id", JStr random_id);
               ("session_id", session_id);
               ("user_addr", JStr addr);
               ("wallet_type", JStr "metamask");
               ("is_verified", JBool true)]) in
    h' = h2 ++ [EvTime now; EvUuid random_id]
    /\ validate_response rt r1 = Ok r1
    /\ data_field r1 "text" = Ok challenge
    /\ sign_message rt account challenge = Ok signature
    /\ validate_response rt r2 = Ok r2
    /\ data_field r2 "session_id" = Ok session_id
    /\ get_header "account" (headers self') = Some header
    /\ proxies self' = proxies self
    /\ (forall (items : dict) (w' : world) (h0 tr : list event),
           snd (exec w' (mint_loop rt self' account items) h0) = h0 ++ tr ->
           Forall (fun rq => get_header "account" (rq_headers rq) = Some header)
             (requests_of tr)).
Proof.
  intros H. unfold login in H.
  rewrite exec_bind in H. unfold sign_v2 in H. rewrite exec_validated in H.
  cbv zeta in H. fold (sign_v2_request self (lower (address account))) in H.
  destruct (rbind (http w h (sign_v2_request self (lower (address account))))
              (validate_response rt)) as [r1 | e1] eqn:E1; [| discriminate H].
  apply validated_ok in E1. destruct E1 as [A1 V1]. rewrite A1 in H.
  rewrite exec_bind, exec_lift in H.
  destruct (data_field r1 "text") as [challenge | e2] eqn:E2; [| discriminate H].
  rewrite exec_bind, exec_lift in H.
  destruct (sign_message rt account challenge) as [signature | e3] eqn:E3; [| discriminate H].
  rewrite exec_bind in H. unfold login_v2 in H. rewrite exec_validated in H.
  cbv zeta in H. fold (login_v2_request self (lower (address account)) signature) in H.
  destruct (rbind (http w _ (login_v2_request self (lower (address account)) signature))
              (validate_response rt)) as [r2 | e4] eqn:E4; [| discriminate H].
  apply validated_ok in E4. destruct E4 as [A2 V2]. rewrite A2 in H.
  rewrite exec_bind, exec_lift in H.
  destruct (data_field r2 "session_id") as [session_id | e5] eqn:E5; [| discriminate H].
  simpl in H. rewrite <- !app_assoc in H. simpl in H.
  injection H as Hself Hh.
  exists r1, r2, challenge, signature, session_id. cbv zeta.
  rewrite <- !app_assoc. simpl.
  split; [symmetry; exact Hh |].
  repeat (split; [assumption |]).
  subst self'. simpl.
  split; [apply get_header_set_header |].
  split; [reflexivity |].
  intros items w' h0 tr Htr.
  pose proof (all_requests_exec _ w' _ h0 tr
                (all_requests_mint_loop rt _ account items) Htr) as Hall.
  eapply Forall_impl; [| exact Hall].
  intros rq [Hh' _]. rewrite Hh'. simpl. apply get_header_set_header.
Qed.

(** ** The mint loop *)

Lemma exec_is_can_mint_bage (rt : runtime) (w : world) (self : Debank) (id : JSON)
    (h : list event) :
  let r := http w h (can_mint_request self id) in
  exec w (is_can_mint_bage rt self id) h =
    ((let? response := rbind r (validate_response rt) in data_field response "can_mint"),
     h ++ [EvHttp (can_mint_request self id) r]).
Proof.
  cbv zeta. unfold is_can_mint_bage, badge_user_can_mint.
  rewrite exec_bind, exec_validated. cbv zeta. fold (can_mint_request self id).
  destruct (rbind (http w h (can_mint_request self id)) (validate_response rt));
    simpl; [apply exec_lift | reflexivity].
Qed.

Lemma exec_on_error (w : world) (e : exn) (h : list event) :
  exec w (on_error e) h = (Ok tt, h ++ [EvLog ERROR (error_text e)]).
Proof. destruct e; reflexivity. Qed.

(** The loop always ends, and its history has the shape of [badge_steps]. *)
Lemma mint_loop_steps (rt : runtime) (w : world) (debank : Debank) (account : Account)
    (items : dict) (h : list event) :
  exists tr res,
    exec w (mint_loop rt debank account items) h = (res, h ++ tr)
    /\ badge_steps rt debank account items tr res.
Proof.
  revert h. induction items as [| [id name] rest IH]; intros h.
  - exists [], (Ok tt). simpl. rewrite app_nil_r. split; [reflexivity | constructor].
  - cbn [mint_loop]. rewrite exec_bind, exec_is_can_mint_bage. cbv zeta.
    destruct (http w h (can_mint_request debank id)) as [r | e] eqn:Hq.
    2:{ exists [EvHttp (can_mint_request debank id) (Raise e)], (Raise e).
        split; [reflexivity | apply steps_query_failed; reflexivity]. }
    cbn [rbind].
    destruct (validate_response rt r) as [r0 | e] eqn:Hv.
    2:{ exists [EvHttp (can_mint_request debank id) (Ok r)], (Raise e).
        split; [reflexivity |]. apply steps_query_failed. simpl. rewrite Hv. reflexivity. }
    pose proof (validate_response_same rt r Hv) as E. subst r0.
    cbn [rbind].
    destruct (data_field r "can_mint") as [flag | e] eqn:Hf.
    2:{ exists [EvHttp (can_mint_request debank id) (Ok r)], (Raise e).
        split; [reflexivity |]. apply steps_query_failed. simpl. rewrite Hv. simpl. exact Hf. }
    rewrite exec_bind.
    destruct (py_truthy flag) eqn:Ht.
    + exists [EvHttp (can_mint_request debank id) (Ok r)], (Raise get_json_error).
      split; [reflexivity | eapply steps_mint_raised; eassumption].
    + cbn [exec]. fold (not_minted_text rt account name).
      destruct (IH (((h ++ [EvHttp (can_mint_request debank id) (Ok r)])
                     ++ [EvLog ERROR (not_minted_text rt account name)])
                    ++ [EvSleep 2])) as (tr & res & Hx & Hs).
      exists (EvHttp (can_mint_request debank id) (Ok r)
              :: EvLog ERROR (not_minted_text rt account name)
              :: EvSleep 2 :: tr), res.
      split.
      * rewrite Hx. rewrite <- !app_assoc. reflexivity.
      * eapply steps_skipped; eassumption.
Qed.

(** Once [login] has returned, the [try] statement goes through the catalog
    in its order as [badge_steps] says, and an exception that ends the loop
    is logged. *)
Lemma attempt_steps (rt : runtime) (w : world) (BADGE_IDS : dict)
    (debank debank' : Debank) (account : Account) (h h1 : list event) :
  exec w (login rt debank account) h = (Ok debank', h1) ->
  (exists tr res,
      badge_steps rt debank' account BADGE_IDS tr res
      /\ exec w (attempt rt BADGE_IDS debank account) h = (Ok tt, h1 ++ tr ++ error_log res)).
Proof.
  intros Hlogin.
  destruct (mint_loop_steps rt w debank' account BADGE_IDS h1) as (tr & res & Hx & Hs).
  exists tr, res. split; [exact Hs |].
  unfold attempt. rewrite exec_try_except, exec_bind, Hlogin, Hx.
  destruct res as [[] | e]; simpl.
  - rewrite app_nil_r. reflexivity.
  - rewrite exec_on_error, <- app_assoc. reflexivity.
Qed.

(** A login against a service that lets everybody in. *)
Lemma C4_login_session_header_witness :
  exists self' h',
    exec Sample.w (login Sample.rt Sample.debank0 Sample.account1) [] = (Ok self', h')
    /\ get_header "account" (headers self') =
       Some (Sample.dumps
               (JObj [("random_at", JInt 1700000000);
                      ("random_id", JStr "c0ffee");
                      ("session_id", JStr "s-1");
                      ("user_addr", JStr "0xabcd111111111111111111111111111111111111");
                      ("wallet_type", JStr "metamask");
                      ("is_verified", JBool true)])).
Proof.
  eexists. eexists. split; [vm_compute; reflexivity |].
  destruct (C4_login_session_header Sample.rt Sample.w Sample.debank0 Sample.account1 []
              eq_refl)
    as (r1 & r2 & challenge & signature & session_id & Hh & _ & _ & _ & _ & D2 & Hget & _).
  cbv zeta in Hh, Hget.
  injection Hh as _ Hr2. subst r2.
  injection D2 as Hsid. subst session_id.
  exact Hget.
Defined.

Example attempt_genesis_requests :
  map rq_url
    (requests_of
       (snd (exec Sample.w
               (attempt Sample.rt Sample.genesis Sample.debank0 Sample.account1) []))) =
    [DebankApiUrl.SIGN_V2; DebankApiUrl.LOGIN_V2; DebankApiUrl.BADGE_USER_CAN_MINT].
Proof. reflexivity. Qed.

(** ** The badge catalog *)

Lemma key_eqb_refl (k : JSON) : hashable k = true -> key_eqb k k = true.
Proof.
  destruct k as [| b | n | s | items | fields]; simpl; intros H; try discriminate.
  - reflexivity.
  - destruct b; reflexivity.
  - apply Z.eqb_refl.
  - apply String.eqb_refl.
Qed.

Lemma key_eqb_sym (a b : JSON) : key_eqb a b = key_eqb b a.
Proof.
  destruct a as [| x | x | x | x | x], b as [| y | y | y | y | y]; simpl; try reflexivity.
  - destruct x, y; reflexivity.
  - apply Z.eqb_sym.
  - apply Z.eqb_sym.
  - apply Z.eqb_sym.
  - apply String.eqb_sym.
Qed.

Lemma key_eqb_trans (a b c : JSON) :
  key_eqb a b = true -> key_eqb b c = true -> key_eqb a c = true.
Proof.
  destruct a as [| x | x | x | x | x], b as [| y | y | y | y | y],
           c as [| z | z | z | z | z]; simpl; try discriminate; try reflexivity;
    rewrite ?Z.eqb_eq, ?String.eqb_eq, ?Bool.eqb_true_iff;
    try (intros; subst; reflexivity).
  all: try (destruct x, y; simpl; intros; subst; try discriminate; reflexivity).
  all: try (destruct x, z; simpl; intros; subst; try discriminate; reflexivity).
  all: try (destruct y, z; simpl; intros; subst; try discriminate; reflexivity).
  all: try (destruct x; simpl; intros; subst; try discriminate; try reflexivity; lia).
  all: try (destruct y; simpl; intros; subst; try discriminate; try reflexivity; lia).
  all: try (destruct z; simpl; intros; subst; try discriminate; try reflexivity; lia).
Qed.

(** Reading a key after a store. *)
Lemma dict_get_put (id k v : JSON) (d : dict) :
  dict_get id (dict_put k v d) = if key_eqb k id then Some v else dict_get id d.
Proof.
  induction d as [| [k' v'] rest IH]; simpl; [reflexivity |].
  destruct (key_eqb k' k) eqn:Ekk; simpl.
  - destruct (key_eqb k id) eqn:Eki.
    + rewrite (key_eqb_trans k' k id Ekk Eki). reflexivity.
    + destruct (key_eqb k' id) eqn:Ek'i; [| reflexivity].
      rewrite key_eqb_sym in Ekk.
      rewrite (key_eqb_trans k k' id Ekk Ek'i) in Eki. discriminate.
  - rewrite IH. destruct (key_eqb k' id) eqn:Ek'i; [| reflexivity].
    destruct (key_eqb k id) eqn:Eki; [| reflexivity].
    rewrite key_eqb_sym in Eki.
    rewrite (key_eqb_trans k' id k Ek'i Eki) in Ekk. discriminate.
Qed.

(** A store on a key the dict does not have appends. *)
Lemma dict_put_new (k v : JSON) (d : dict) :
  forallb (fun k' => negb (key_eqb k' k)) (map fst d) = true ->
  dict_put k v d = d ++ [(k, v)].
Proof.
  induction d as [| [k' v'] rest IH]; simpl; [reflexivity |].
  intros H. apply andb_prop in H. destruct H as [Hk Hrest].
  apply negb_true_iff in Hk. rewrite Hk, (IH Hrest). reflexivity.
Qed.

(** The keys of a dict after a store are the old ones and maybe the new. *)
Lemma dict_put_keys (k v k0 v0 : JSON) (d : dict) :
  In (k0, v0) (dict_put k v d) -> k0 = k \/ In k0 (map fst d).
Proof.
  induction d as [| [k' v'] rest IH]; simpl.
  - intros [H | []]. left. congruence.
  - destruct (key_eqb k' k).
    + intros [H | H]; [right; left; congruence | right; right].
      change k0 with (fst (k0, v0)). apply in_map. exact H.
    + intros [H | H]; [right; left; congruence |].
      destruct (IH H) as [E | Hin]; [left; exact E | right; right; exact Hin].
Qed.

(** The dict comprehension, on the entries of the badges. *)
Lemma badge_dict_entries (badges : list JSON) (acc cat : dict) :
  badge_dict badges acc = Ok cat ->
  exists entries,
    mapM badge_entry badges = Ok entries
    /\ forallb hashable (map fst entries) = true
    /\ cat = fold_left (fun d e => dict_put (fst e) (snd e) d) entries acc.
Proof.
  revert acc. induction badges as [| badge rest IH]; intros acc; simpl.
  - intros H. injection H as H. exists []. repeat split. symmetry. exact H.
  - unfold badge_entry at 1.
    destruct (py_getitem badge "id") as [id | e]; simpl; [| discriminate].
    destruct (py_getitem badge "name") as [name | e]; simpl; [| discriminate].
    unfold dict_setitem. destruct (hashable id) eqn:Hh; simpl; [| discriminate].
    intros H. destruct (IH _ H) as (entries & Hm & Hhs & Hcat).
    exists ((id, name) :: entries). rewrite Hm. simpl. rewrite Hh, Hhs.
    repeat split. exact Hcat.
Qed.

Lemma fold_put_get (id : JSON) (entries : list (JSON * JSON)) (acc : dict) :
  dict_get id (fold_left (fun d e => dict_put (fst e) (snd e) d) entries acc) =
    match last_named id entries with
    | Some name => Some name
    | None => dict_get id acc
    end.
Proof.
  revert acc. induction entries as [| [k name] rest IH]; intros acc; simpl; [reflexivity |].
  rewrite IH. destruct (last_named id rest); [reflexivity |].
  rewrite dict_get_put. destruct (key_eqb k id); reflexivity.
Qed.

Lemma fold_put_keys (entries : list (JSON * JSON)) (acc : dict) (k v : JSON) :
  In (k, v) (fold_left (fun d e => dict_put (fst e) (snd e) d) entries acc) ->
  In k (map fst acc) \/ In k (map fst entries).
Proof.
  revert acc. induction entries as [| [k1 name] rest IH]; intros acc; simpl.
  - intros H. left. change k with (fst (k, v)). apply in_map. exact H.
  - intros H. destruct (IH _ H) as [Hacc | Hrest]; [| right; right; exact Hrest].
    apply in_map_iff in Hacc. destruct Hacc as ([k2 v2] & E & Hin). simpl in E. subst k2.
    destruct (dict_put_keys _ _ _ _ _ Hin) as [E | Hin']; [right; left; symmetry; exact E |].
    left. exact Hin'.
Qed.

Lemma fold_put_distinct (entries : list (JSON * JSON)) (acc : dict) :
  distinct_keys (map fst (acc ++ entries)) = true ->
  fold_left (fun d e => dict_put (fst e) (snd e) d) entries acc = acc ++ entries.
Proof.
  revert acc. induction entries as [| [k name] rest IH]; intros acc H; simpl.
  - symmetry. apply app_nil_r.
  - assert (Hnew : forallb (fun k' => negb (key_eqb k' k)) (map fst acc) = true).
    { clear IH. induction acc as [| [k0 v0] acc IHacc]; simpl in *; [reflexivity |].
      apply andb_prop in H. destruct H as [H0 Hrest].
      rewrite (IHacc Hrest), andb_true_r.
      rewrite map_app, forallb_app in H0. apply andb_prop in H0. destruct H0 as [_ H0].
      simpl in H0. apply andb_prop in H0. destruct H0 as [H0 _].
      rewrite key_eqb_sym. exact H0. }
    rewrite (dict_put_new _ _ _ Hnew), IH.
    + rewrite <- app_assoc. reflexivity.
    + rewrite <- app_assoc. exact H.
Qed.

Lemma last_named_some (id name : JSON) (entries : list (JSON * JSON)) :
  In (id, name) entries -> hashable id = true ->
  exists v, last_named id entries = Some v.
Proof.
  intros Hin Hh. induction entries as [| [k n] rest IH]; simpl; [destruct Hin |].
  destruct (last_named id rest) as [later |] eqn:E; [exists later; reflexivity |].
  destruct Hin as [Heq | Hin].
  - injection Heq as Hk Hn. subst k n. rewrite (key_eqb_refl id Hh). eexists. reflexivity.
  - destruct (IH Hin) as [v Hv]. discriminate Hv.
Qed.

Lemma dict_get_In (id v : JSON) (d : dict) :
  dict_get id d = Some v -> exists k, In (k, v) d /\ key_eqb k id = true.
Proof.
  induction d as [| [k' v'] rest IH]; simpl; [discriminate |].
  destruct (key_eqb k' id) eqn:E.
  - intros H. injection H as H. subst v'. exists k'. split; [left; reflexivity | exact E].
  - intros H. destruct (IH H) as (k & Hin & Hk). exists k. split; [right; exact Hin | exact Hk].
Qed.

Lemma forallb_hashable_In (ks : list JSON) (k : JSON) :
  forallb hashable ks = true -> In k ks -> hashable k = true.
Proof.
  intros H Hin. rewrite forallb_forall in H. apply H, Hin.
Qed.

(** C8: the catalog [badge_list] returns, against the [(id, name)] pairs of
    the badges of the response: every key of the catalog is an id of the
    list and every id of the list has its (equal) key in the catalog; each
    id is mapped to the name of the last badge with that id; when no two
    badges have equal ids the catalog is the list of pairs itself, in the
    order of the response, so no key is dropped. *)
Theorem C8_badge_catalog (rt : runtime) (w : world) (h h' : list event) (cat : dict) :
  exec w (badge_list rt) h = (Ok cat, h') ->
  exists (response : Response) (badge_list_json : JSON) (badges : list JSON)
         (entries : list (JSON * JSON)),
    http w h (badge_list_request rt) = Ok response
    /\ data_field response "badge_list" = Ok badge_list_json
    /\ py_iter badge_list_json = Ok badges
    /\ mapM badge_entry badges = Ok entries
    /\ (forall k v, In (k, v) cat -> In k (map fst entries))
    /\ (forall id, In id (map fst entries) ->
          exists k v, In (k, v) cat /\ key_eqb k id = true)
    /\ (forall id, dict_get id cat = last_named id entries)
    /\ (distinct_keys (map fst entries) = true -> cat = entries).
Proof.
  intros H. unfold badge_list in H.
  destruct (client_error rt None) as [e |]; [discriminate H |].
  cbn [exec] in H. fold (badge_list_request rt) in H.
  destruct (http w h (badge_list_request rt)) as [response | e] eqn:Hr; [| discriminate H].
  cbn [lift bind] in H. unfold badge_list_of in H.
  rewrite exec_bind, exec_lift in H.
  destruct (data_field response "badge_list") as [bl | e] eqn:Hd; [| discriminate H].
  rewrite exec_bind, exec_lift in H.
  destruct (badge_summary bl) as [summary | e]; [| discriminate H].
  cbn [exec] in H. rewrite exec_lift in H.
  destruct (py_iter bl) as [badges | e] eqn:Hi; [| discriminate H].
  cbn [rbind] in H.
  destruct (badge_dict badges []) as [cat0 | e] eqn:Hb; [| discriminate H].
  injection H as Hcat _. subst cat0.
  destruct (badge_dict_entries _ _ Hb) as (entries & Hm & Hh & Hfold).
  exists response, bl, badges, entries.
  assert (Hget : forall id, dict_get id cat = last_named id entries).
  { intros id. rewrite Hfold, fold_put_get. destruct (last_named id entries); reflexivity. }
  repeat (split; [reflexivity || assumption |]).
  split; [| split; [| split; [exact Hget |]]].
  - intros k v Hin. rewrite Hfold in Hin.
    destruct (fold_put_keys _ _ _ _ Hin) as [[] | Hk]. exact Hk.
  - intros id Hin. apply in_map_iff in Hin. destruct Hin as ([id0 name] & E & Hin).
    simpl in E. subst id0.
    assert (Hid : hashable id = true).
    { eapply forallb_hashable_In; [exact Hh |]. change id with (fst (id, name)).
      apply in_map. exact Hin. }
    destruct (last_named_some _ _ _ Hin Hid) as [v Hv].
    rewrite <- Hget in Hv. destruct (dict_get_In _ _ Hv) as (k & Hk & Hkey).
    exists k, v. split; assumption.
  - intros Hdist. rewrite Hfold. apply (fold_put_distinct entries []). exact Hdist.
Qed.

(** The catalog of the sample service. *)
Lemma C8_badge_catalog_witness :
  exists (response : Response) (badge_list_json : JSON) (badges : list JSON)
         (entries : list (JSON * JSON)),
    http Sample.w [] (badge_list_request Sample.rt) = Ok response
    /\ data_field response "badge_list" = Ok badge_list_json
    /\ py_iter badge_list_json = Ok badges
    /\ mapM badge_entry badges = Ok entries
    /\ (forall k v, In (k, v) Sample.genesis -> In k (map fst entries))
    /\ (forall id, In id (map fst entries) ->
          exists k v, In (k, v) Sample.genesis /\ key_eqb k id = true)
    /\ (forall id, dict_get id Sample.genesis = last_named id entries)
    /\ (distinct_keys (map fst entries) = true -> Sample.genesis = entries).
Proof.
  exact (C8_badge_catalog Sample.rt Sample.w []
           (h' := snd (exec Sample.w (badge_list Sample.rt) [])) eq_refl).
Defined.

(** Two badges with equal ids: one key, the later name ([True == 1]). *)
Example badge_dict_equal_ids :
  badge_dict [JObj [("id", JBool true); ("name", JStr "first")];
              JObj [("id", JInt 1); ("name", JStr "second")]] [] =
    Ok [(JBool true, JStr "second")].
Proof. reflexivity. Qed.

(** The names the summary joins are the names of the entries. *)
Lemma mapM_badge_entry_names (badges : list JSON) (entries : list (JSON * JSON)) :
  mapM badge_entry badges = Ok entries ->
  mapM (fun badge => py_getitem badge "name") badges = Ok (map snd entries).
Proof.
  revert entries. induction badges as [| badge rest IH]; intros entries; simpl.
  - intros H. injection H as H. subst entries. reflexivity.
  - unfold badge_entry at 1.
    destruct (py_getitem badge "id") as [id | e]; simpl; [| discriminate].
    destruct (py_getitem badge "name") as [name | e]; simpl; [| discriminate].
    destruct (mapM badge_entry rest) as [es | e]; simpl; [| discriminate].
    intros H. injection H as H. subst entries. rewrite (IH es eq_refl). reflexivity.
Qed.

Lemma join_items_ok (index : nat) (items : list JSON) :
  forallb is_JStr items = true -> exists ss, join_items index items = Ok ss.
Proof.
  revert index. induction items as [| item rest IH]; intros index; simpl.
  - intros _. exists []. reflexivity.
  - intros H. apply andb_prop in H. destruct H as [Hs Hrest].
    destruct item; try discriminate Hs.
    destruct (IH (S index) Hrest) as [ss Hss]. rewrite Hss. eexists. reflexivity.
Qed.

Lemma badge_dict_ok (badges : list JSON) (entries : list (JSON * JSON)) (acc : dict) :
  mapM badge_entry badges = Ok entries ->
  forallb hashable (map fst entries) = true ->
  exists cat, badge_dict badges acc = Ok cat.
Proof.
  revert entries acc. induction badges as [| badge rest IH]; intros entries acc; simpl.
  - intros _ _. exists acc. reflexivity.
  - unfold badge_entry at 1.
    destruct (py_getitem badge "id") as [id | e]; simpl; [| discriminate].
    destruct (py_getitem badge "name") as [name | e]; simpl; [| discriminate].
    destruct (mapM badge_entry rest) as [es | e] eqn:Hes; simpl; [| discriminate].
    intros H Hh. injection H as H. subst entries. simpl in Hh.
    apply andb_prop in Hh. destruct Hh as [Hid Hrest].
    unfold dict_setitem. rewrite Hid. simpl. apply (IH es _ eq_refl Hrest).
Qed.

(** X11: [badge_list] returns a catalog, after one request and one log line,
    on every response whose body has [data.badge_list] a list of objects
    that each have a hashable [id] and a [str] [name], whatever its status. *)
Lemma badge_list_returns (rt : runtime) (w : world) (h : list event)
    (response : Response) (badges : list JSON) (entries : list (JSON * JSON)) :
  client_error rt None = None ->
  http w h (badge_list_request rt) = Ok response ->
  data_field response "badge_list" = Ok (JArr badges) ->
  mapM badge_entry badges = Ok entries ->
  forallb hashable (map fst entries) = true ->
  forallb is_JStr (map snd entries) = true ->
  exists cat summary,
    exec w (badge_list rt) h =
      (Ok cat, h ++ [EvHttp (badge_list_request rt) (Ok response); EvLog INFO summary]).
Proof.
  intros Hc Hr Hd Hm Hh Hs. unfold badge_list. rewrite Hc.
  cbn [exec]. fold (badge_list_request rt). rewrite Hr.
  cbn [lift bind]. unfold badge_list_of.
  rewrite exec_bind, exec_lift, Hd, exec_bind, exec_lift.
  unfold badge_summary. cbn [py_len py_iter rbind].
  rewrite (mapM_badge_entry_names _ Hm). cbn [rbind].
  unfold str_join. destruct (join_items_ok 0 _ Hs) as [ss Hss]. rewrite Hss.
  cbn [rbind exec]. rewrite exec_lift. cbn [rbind].
  destruct (badge_dict_ok badges [] Hm Hh) as [cat Hcat]. rewrite Hcat.
  exists cat. eexists. rewrite <- app_assoc. reflexivity.
Qed.

(** ** The event loop *)

Lemma nth_error_set_nth_eq {A} (l : list A) (i : nat) (a b : A) :
  nth_error l i = Some b -> nth_error (set_nth i a l) i = Some a.
Proof.
  revert i. induction l as [| x rest IH]; intros [| j]; simpl; try discriminate; auto.
Qed.

Lemma nth_error_set_nth_neq {A} (l : list A) (i j : nat) (a : A) :
  i <> j -> nth_error (set_nth i a l) j = nth_error l j.
Proof.
  revert i j. induction l as [| x rest IH]; intros [| i] [| j] H; simpl; auto.
  contradiction.
Qed.

Lemma In_set_nth {A} (l : list A) (i : nat) (a x : A) :
  In x (set_nth i a l) -> x = a \/ In x l.
Proof.
  revert i. induction l as [| y rest IH]; intros [| j]; simpl; auto.
  - intros [H | H]; auto.
  - intros [H | H]; auto. destruct (IH _ H); auto.
Qed.

Lemma Forall_set_nth {A} (P : A -> Prop) (l : list A) (i : nat) (a : A) :
  Forall P l -> P a -> Forall P (set_nth i a l).
Proof.
  intros Hl Ha. revert i. induction Hl as [| x rest Hx Hrest IH]; intros [| j]; simpl;
    constructor; auto.
Qed.

(** Replacing task [i] replaces what it has in flight. *)
Lemma in_flight_set_nth (ts : list task) (b i : nat) (t t' : task) :
  nth_error ts i = Some t ->
  exists others,
    Permutation (in_flight b ts) (flight (b + i) t ++ others)
    /\ Permutation (in_flight b (set_nth i t' ts)) (flight (b + i) t' ++ others).
Proof.
  revert b i. induction ts as [| t0 rest IH]; intros b [| j]; simpl; try discriminate.
  - intros H. injection H as H. subst t0. rewrite Nat.add_0_r.
    exists (in_flight (S b) rest). split; apply Permutation_refl.
  - intros H. destruct (IH (S b) j H) as (others & H1 & H2).
    replace (S b + j) with (b + S j) in H1, H2 by lia.
    exists (flight b t0 ++ others). split.
    + rewrite H1. rewrite !app_assoc. apply Permutation_app_tail, Permutation_app_comm.
    + rewrite H2. rewrite !app_assoc. apply Permutation_app_tail, Permutation_app_comm.
Qed.

Lemma never_throws_try_except (c : coro unit) : never_throws (try_except c on_error).
Proof.
  induction c as [a | e | rq k IH | secs k IH | lvl msg k IH | k IH | k IH]; simpl; auto.
  destruct e; exact I.
Qed.

(** Up to the next suspension, a [try] statement does what its body does,
    and logs and ends where the body raises. *)
Lemma advance_try_except (w : world) (c : coro unit) (h : list event) :
  advance w (try_except c on_error) h =
    match advance w c h with
    | (PRet, h') => (PRet, h')
    | (PThrow e, h') => (PRet, h' ++ [EvLog ERROR (error_text e)])
    | (PHttp rq k, h') => (PHttp rq (fun r => try_except (k r) on_error), h')
    | (PSleep secs k, h') => (PSleep secs (try_except k on_error), h')
    end.
Proof.
  revert h. induction c as [a | e | rq k IH | secs k IH | lvl msg k IH | k IH | k IH];
    intros h; simpl; auto.
  destruct e; reflexivity.
Qed.

Section EventLoop.

Variable rt : runtime.
Variable w : world.
Variable BADGE_IDS : dict.

Lemma prepared_ok (i : nat) (it : item) (a : Account * Debank) :
  prepare rt it = Ok a -> prepared rt (i, it) = true.
Proof. intros H. unfold prepared. simpl. rewrite H. reflexivity. Qed.

Lemma prepared_raise (i : nat) (it : item) (e : exn) :
  prepare rt it = Raise e -> prepared rt (i, it) = false.
Proof. intros H. unfold prepared. simpl. rewrite H. reflexivity. Qed.

(** The task took item [it], whose preparation went through, as the first
    of a pass, and finished it. *)
Lemma pass_cons (i : nat) (it : item) (q : list item) (h h' : list event)
    (tk fin : list (nat * item)) (a : Account * Debank) (r : task * shared) :
  prepare rt it = Ok a ->
  pass rt i (mk_shared q h' (tk ++ [(i, it)]) (fin ++ [(i, it)])) [] r ->
  pass rt i (mk_shared (it :: q) h tk fin) [] r.
Proof.
  intros Hp (new & done & Ht & Hq & Hf & Hg & Hr & Hperm & Hfail & Hbad).
  simpl in *. exists (it :: new), (it :: done). simpl.
  rewrite Ht, Hf, <- !app_assoc, Hq, (prepared_ok i it Hp). simpl.
  repeat (split; [solve [auto] |]). split.
  - intros e He. destruct (Hfail e He) as (it' & Hin & Hit').
    exists it'. split; [right; exact Hin | exact Hit'].
  - intros it' [E | Hin] Hnp.
    + subst it'. rewrite (prepared_ok i it Hp) in Hnp. discriminate Hnp.
    + apply (Hbad it' Hin Hnp).
Qed.

(** The task took item [it] and suspended on it. *)
Lemma pass_suspend (i : nat) (it : item) (q : list item) (h h' : list event)
    (tk fin : list (nat * item)) (a : Account * Debank) (t : task) :
  prepare rt it = Ok a -> guarded t -> flight i t = [(i, it)] ->
  pass rt i (mk_shared (it :: q) h tk fin) []
    (t, mk_shared q h' (tk ++ [(i, it)]) fin).
Proof.
  intros Hp Hg Hfl. exists [it], []. simpl.
  rewrite (prepared_ok i it Hp), Hfl, app_nil_r.
  repeat (split; [solve [auto] |]).
  split; [intros H; subst t; discriminate Hfl |].
  split; [apply Permutation_refl |].
  split.
  - intros e H. subst t. discriminate Hfl.
  - intros it' [E | []] Hnp. subst it'.
    rewrite (prepared_ok i it Hp) in Hnp. discriminate Hnp.
Qed.

Lemma worker_pass (i : nat) (q : list item) (h : list event)
    (tk fin : list (nat * item)) :
  pass rt i (mk_shared q h tk fin) [] (worker rt w BADGE_IDS i q h tk fin).
Proof.
  revert h tk fin. induction q as [| it q' IH]; intros h tk fin.
  - exists [], []. simpl. rewrite !app_nil_r.
    repeat (split; [solve [auto] |]).
    split; [intros e H; discriminate H | intros it []].
  - cbn [worker]. destruct (prepare rt it) as [[account debank] | e] eqn:Hp.
    + unfold attempt. rewrite advance_try_except.
      destruct (advance w _ h) as [[| e | rq k | secs k] h'].
      * eapply pass_cons; [exact Hp | apply IH].
      * eapply pass_cons; [exact Hp | apply IH].
      * eapply pass_suspend; [exact Hp | eexists; reflexivity | reflexivity].
      * eapply pass_suspend; [exact Hp | eexists; reflexivity | reflexivity].
    + exists [it], []. simpl. rewrite (prepared_raise i it Hp), app_nil_r. simpl.
      repeat (split; [solve [auto] |]).
      split; [intros H; discriminate H |].
      split; [apply Permutation_refl |].
      split.
      * intros e0 H. injection H as H. subst e0.
        exists it. split; [left; reflexivity | exact Hp].
      * intros it' _ _. exists e. reflexivity.
Qed.

Lemma map_snd_pair (i : nat) (l : list item) : map snd (map (pair i) l) = l.
Proof. induction l as [| x rest IH]; simpl; [| rewrite IH]; reflexivity. Qed.

(** A suspended task that goes on inside its [try] statement. *)
Lemma continue_pass (i : nat) (it : item) (c0 : coro unit) (sh : shared) :
  pass rt i sh [(i, it)] (continue rt w BADGE_IDS i it (try_except c0 on_error) sh).
Proof.
  unfold continue. rewrite advance_try_except.
  assert (Hfin : forall h' r,
             pass rt i (mk_shared (queue sh) h' (taken sh) (finished sh ++ [(i, it)])) [] r ->
             pass rt i sh [(i, it)] r).
  { intros h' r (new & done & Ht & Hq & Hf & Hg & Hr & Hperm & Hfail & Hbad).
    simpl in *. exists new, (it :: done). simpl.
    rewrite Hf, <- app_assoc. simpl.
    repeat (split; [solve [auto] |]). exact Hbad. }
  assert (Hsusp : forall h' t,
             guarded t -> flight i t = [(i, it)] ->
             pass rt i sh [(i, it)]
               (t, mk_shared (queue sh) h' (taken sh) (finished sh))).
  { intros h' t Hg Hfl. exists [], []. simpl. rewrite Hfl, !app_nil_r.
    repeat (split; [solve [auto] |]).
    split; [intros H; subst t; discriminate Hfl |].
    split; [apply Permutation_refl |].
    split; [intros e H; subst t; discriminate Hfl | intros it' []]. }
  destruct (advance w c0 (trace sh)) as [[| e | rq k | secs k] h'].
  - apply (Hfin h'), worker_pass.
  - apply (Hfin (h' ++ [EvLog ERROR (error_text e)])), worker_pass.
  - apply Hsusp; [eexists; reflexivity | reflexivity].
  - apply Hsusp; [eexists; reflexivity | reflexivity].
Qed.

(** Putting back a task after a pass keeps the invariant. *)
Lemma put_task_invariant (q0 : list item) (s : loop_state) (i : nat) (t : task)
    (r : task * shared) :
  invariant rt q0 s ->
  nth_error (tasks s) i = Some t ->
  (forall e, t <> Failed e) ->
  pass rt i (mem s) (flight i t) r ->
  invariant rt q0 (put_task i r s).
Proof.
  intros [Iq Ic Ig Ir If Iu Ira Inr] Hi Hnf
         (new & done & Ht & Hq & Hf & Hg & Hr & Hperm & Hfail & Hbad).
  destruct r as [t' sh']. simpl in *.
  constructor; simpl.
  - rewrite Ht, map_app, map_snd_pair, <- app_assoc, Hq. exact Iq.
  - rewrite Ht, Hf, filter_app.
    destruct (in_flight_set_nth (tasks s) 0 i t' Hi) as (others & H1 & H2).
    simpl in H1, H2. rewrite H2, Ic, H1.
    rewrite <- !app_assoc. apply Permutation_app_head.
    rewrite (Permutation_app_comm others), app_assoc, Hperm, <- app_assoc.
    apply Permutation_refl.
  - apply Forall_set_nth; assumption.
  - intros Hin. destruct (In_set_nth _ _ _ _ Hin) as [E | Hold].
    + apply Hr. symmetry. exact E.
    + rewrite (Ir Hold) in Hq. destruct new; [exact Hq | discriminate Hq].
  - intros j e Hj. destruct (Nat.eq_dec i j) as [E | N].
    + subst j. rewrite (nth_error_set_nth_eq _ _ t' Hi) in Hj. injection Hj as Hj.
      destruct (Hfail e Hj) as (it & Hin & Hit). exists it. split; [| exact Hit].
      rewrite Ht. apply in_or_app. right. apply in_map. exact Hin.
    + rewrite (nth_error_set_nth_neq _ _ N) in Hj.
      destruct (If j e Hj) as (it & Hin & Hit). exists it. split; [| exact Hit].
      rewrite Ht. apply in_or_app. left. exact Hin.
  - intros j it Hin Hnp. rewrite Ht in Hin. apply in_app_or in Hin.
    destruct Hin as [Hin | Hin].
    + destruct (Iu j it Hin Hnp) as [e He].
      destruct (Nat.eq_dec i j) as [E | N].
      * subst j. rewrite Hi in He. injection He as He. destruct (Hnf e He).
      * exists e. rewrite (nth_error_set_nth_neq _ _ N). exact He.
    + apply in_map_iff in Hin. destruct Hin as (it' & E & Hin).
      injection E as Ej Eit. subst j it'.
      destruct (Hbad it Hin Hnp) as [e He]. exists e.
      rewrite (nth_error_set_nth_eq _ _ t' Hi), He. reflexivity.
  - intros e He. unfold record_failure in He.
    destruct (raised s) as [e0 |] eqn:Hra.
    + injection He as He. subst e0. destruct (Ira e eq_refl) as [j Hj].
      exists j. destruct (Nat.eq_dec i j) as [E | N].
      * subst j. rewrite Hi in Hj. injection Hj as Hj. destruct (Hnf e Hj).
      * rewrite (nth_error_set_nth_neq _ _ N). exact Hj.
    + destruct t'; try discriminate He. injection He as He. subst e0.
      exists i. apply (nth_error_set_nth_eq _ _ _ Hi).
  - intros Hnone j e Hj. unfold record_failure in Hnone.
    destruct (raised s) as [e0 |] eqn:Hra; [discriminate Hnone |].
    destruct (Nat.eq_dec i j) as [E | N].
    + subst j. rewrite (nth_error_set_nth_eq _ _ t' Hi) in Hj. injection Hj as Hj.
      subst t'. discriminate Hnone.
    + rewrite (nth_error_set_nth_neq _ _ N) in Hj. exact (Inr eq_refl j e Hj).
Qed.

Lemma resume_invariant (q0 : list item) (s : loop_state) (i : nat) :
  invariant rt q0 s -> invariant rt q0 (resume rt w BADGE_IDS i s).
Proof.
  intros Hinv. unfold resume.
  destruct (nth_error (tasks s) i) as [[| it rq k | it secs k | | e] |] eqn:Hi;
    try exact Hinv.
  - eapply put_task_invariant; [exact Hinv | exact Hi | discriminate |].
    destruct (mem s) as [q h tk fin]. apply worker_pass.
  - assert (Hg : guarded (AwaitHttp it rq k)).
    { pose proof (inv_guarded Hinv) as HF. rewrite Forall_forall in HF.
      apply HF. eapply nth_error_In. exact Hi. }
    destruct Hg as [k0 Hk]. subst k.
    eapply put_task_invariant; [exact Hinv | exact Hi | discriminate |].
    apply (continue_pass i it (k0 (http w (trace (mem s)) rq))
             (mk_shared (queue (mem s))
                (trace (mem s) ++ [EvHttp rq (http w (trace (mem s)) rq)])
                (taken (mem s)) (finished (mem s)))).
  - assert (Hg : guarded (AwaitSleep it secs k)).
    { pose proof (inv_guarded Hinv) as HF. rewrite Forall_forall in HF.
      apply HF. eapply nth_error_In. exact Hi. }
    destruct Hg as [k0 Hk]. subst k.
    eapply put_task_invariant; [exact Hinv | exact Hi | discriminate |].
    apply (continue_pass i it k0
             (mk_shared (queue (mem s)) (trace (mem s) ++ [EvSleep secs])
                (taken (mem s)) (finished (mem s)))).
Qed.

Lemma in_flight_created (b n : nat) : in_flight b (repeat Created n) = [].
Proof. revert b. induction n as [| n IH]; intros b; simpl; auto. Qed.

Lemma start_invariant (q0 : list item) (h : list event) (n : nat) :
  invariant rt q0 (start q0 h n).
Proof.
  assert (Hc : forall i t, nth_error (repeat Created n) i = Some t -> t = Created).
  { intros i t H. apply nth_error_In in H. apply repeat_spec in H. exact H. }
  constructor; simpl.
  - reflexivity.
  - rewrite in_flight_created. apply Permutation_refl.
  - apply Forall_forall. intros t H. apply repeat_spec in H. subst t. exact I.
  - intros H. apply repeat_spec in H. discriminate H.
  - intros i e H. apply Hc in H. discriminate H.
  - intros i it [].
  - intros e H. discriminate H.
  - intros _ i e H. apply Hc in H. discriminate H.
Qed.

(** Every state the event loop reaches satisfies the invariant. *)
Lemma run_invariant (q0 : list item) (schedule : list nat) (s : loop_state) :
  invariant rt q0 s -> invariant rt q0 (run rt w BADGE_IDS schedule s).
Proof.
  revert s. induction schedule as [| i rest IH]; intros s Hinv; simpl; [exact Hinv |].
  apply IH, resume_invariant, Hinv.
Qed.

End EventLoop.

Lemma length_set_nth {A} (l : list A) (i : nat) (a : A) :
  List.length (set_nth i a l) = List.length l.
Proof.
  revert i. induction l as [| x rest IH]; intros [| j]; simpl; auto.
Qed.

Lemma length_tasks_resume (rt : runtime) (w : world) (BADGE_IDS : dict) (i : nat)
    (s : loop_state) :
  List.length (tasks (resume rt w BADGE_IDS i s)) = List.length (tasks s).
Proof.
  unfold resume.
  destruct (nth_error (tasks s) i) as [[| it rq k | it secs k | | e] |];
    simpl; try reflexivity; apply length_set_nth.
Qed.

Lemma length_tasks_run (rt : runtime) (w : world) (BADGE_IDS : dict)
    (schedule : list nat) (s : loop_state) :
  List.length (tasks (run rt w BADGE_IDS schedule s)) = List.length (tasks s).
Proof.
  revert s. induction schedule as [| i rest IH]; intros s; [reflexivity |].
  change (run rt w BADGE_IDS (i :: rest) s)
    with (run rt w BADGE_IDS rest (resume rt w BADGE_IDS i s)).
  rewrite IH. apply length_tasks_resume.
Qed.

Lemma in_flight_returned (b : nat) (ts : list task) :
  forallb is_returned ts = true -> in_flight b ts = [].
Proof.
  revert b. induction ts as [| t rest IH]; intros b; simpl; [reflexivity |].
  intros H. apply andb_prop in H. destruct H as [Ht Hrest].
  destruct t; try discriminate Ht. simpl. apply IH, Hrest.
Qed.

Lemma filter_all {A} (f : A -> bool) (l : list A) :
  (forall x, In x l -> f x = true) -> filter f l = l.
Proof.
  induction l as [| x rest IH]; simpl; intros H; [reflexivity |].
  rewrite (H x (or_introl eq_refl)), IH; [reflexivity |].
  intros y Hy. apply H. right. exact Hy.
Qed.

(** What [gather] gives when it has completed. *)
Lemma gather_completed (s : loop_state) :
  gather s = Completed -> raised s = None /\ forallb is_returned (tasks s) = true.
Proof.
  unfold gather. destruct (raised s); [discriminate |].
  destruct (forallb is_returned (tasks s)); [auto | discriminate].
Qed.

(** The queue hands out every item once: at any moment the items taken, in
    the order of the input, and the items still queued make up the input;
    when [gather] has completed with at least one worker, every item of the
    input was taken, and each taken item was finished once by the task that
    took it. *)
Theorem queue_partition (rt : runtime) (w : world) (BADGE_IDS : dict)
    (q0 : list item) (h : list event) (n : nat) (schedule : list nat) :
  let s := run rt w BADGE_IDS schedule (start q0 h n) in
  map snd (taken (mem s)) ++ queue (mem s) = q0
  /\ (gather s = Completed -> 0 < n ->
      queue (mem s) = []
      /\ map snd (taken (mem s)) = q0
      /\ Permutation (finished (mem s)) (taken (mem s))).
Proof.
  intros s.
  pose proof (@run_invariant rt w BADGE_IDS q0 schedule _
                (@start_invariant rt q0 h n)) as Hinv.
  fold s in Hinv. split; [apply (inv_queue Hinv) |].
  intros Hc Hn. apply gather_completed in Hc. destruct Hc as [Hnone Hall].
  assert (Hq : queue (mem s) = []).
  { apply (inv_returned Hinv).
    assert (Hlen : List.length (tasks s) = n).
    { unfold s. rewrite length_tasks_run. simpl. apply repeat_length. }
    destruct (tasks s) as [| t rest]; [simpl in Hlen; lia |].
    simpl in Hall. apply andb_prop in Hall. destruct Hall as [Ht _].
    destruct t; try discriminate Ht. left. reflexivity. }
  split; [exact Hq |]. split.
  - pose proof (inv_queue Hinv) as Hp. rewrite Hq, app_nil_r in Hp. exact Hp.
  - pose proof (inv_count Hinv) as Hp.
    rewrite (in_flight_returned 0 _ Hall), app_nil_r in Hp.
    rewrite filter_all in Hp; [symmetry; exact Hp |].
    intros [j it] Hin. destruct (prepared rt (j, it)) eqn:Hprep; [reflexivity |].
    destruct (inv_unprepared Hinv j it Hin Hprep) as [e He].
    destruct (inv_not_raised Hinv Hnone j He).
Qed.

(** An item whose preparation raises keeps [gather] from ever completing. *)
Theorem unprepared_never_completes (rt : runtime) (w : world) (BADGE_IDS : dict)
    (q0 : list item) (h : list event) (n : nat) (schedule : list nat)
    (it : item) (e : exn) :
  In it q0 -> prepare rt it = Raise e -> 0 < n ->
  gather (run rt w BADGE_IDS schedule (start q0 h n)) <> Completed.
Proof.
  intros Hin Hp Hn Hc.
  pose proof (@run_invariant rt w BADGE_IDS q0 schedule _
                (@start_invariant rt q0 h n)) as Hinv.
  destruct (queue_partition rt w BADGE_IDS q0 h n schedule) as [_ Hdone].
  destruct (Hdone Hc Hn) as (_ & Htaken & _).
  rewrite <- Htaken in Hin. apply in_map_iff in Hin.
  destruct Hin as ([j it'] & E & Hin). simpl in E. subst it'.
  assert (Hprep : prepared rt (j, it) = false).
  { unfold prepared. simpl. rewrite Hp. reflexivity. }
  destruct (inv_unprepared Hinv j it Hin Hprep) as [e' He'].
  apply gather_completed in Hc. destruct Hc as [Hnone _].
  destruct (inv_not_raised Hinv Hnone j He').
Qed.

(** ** Errors inside and outside the [try] statement *)

Lemma record_failure_await (t : task) (r : option exn) :
  (forall e, t <> Failed e) -> record_failure t r = r.
Proof.
  intros H. destruct r as [e |]; [reflexivity |].
  destruct t; try reflexivity. destruct (H e eq_refl).
Qed.

(** C3: an exception raised by [login] or by the mint loop does not leave the
    [try] statement: the statement never raises; it logs the exception and
    ends there; in the event loop a task fails, and [gather] raises, only
    through the statements before the [try]; and the task whose account
    raised goes on, in the same turn, to take the next item of the queue and
    start its login. *)
Theorem C3_errors_caught_in_worker (rt : runtime) (w : world) (BADGE_IDS : dict) :
  (forall debank account, never_throws (attempt rt BADGE_IDS debank account))
  /\ (forall debank account h e h',
         exec w (try_body rt BADGE_IDS debank account) h = (Raise e, h') ->
         exec w (attempt rt BADGE_IDS debank account) h =
           (Ok tt, h' ++ [EvLog ERROR (error_text e)]))
  /\ (forall q0 h n schedule,
         let s := run rt w BADGE_IDS schedule (start q0 h n) in
         (forall i e, nth_error (tasks s) i = Some (Failed e) ->
                      exists it, In (i, it) (taken (mem s)) /\ prepare rt it = Raise e)
         /\ (forall e, raised s = Some e ->
                       exists i it, In (i, it) (taken (mem s)) /\ prepare rt it = Raise e))
  /\ (forall s i it rq k e h' next q' account debank,
         nth_error (tasks s) i = Some (AwaitHttp it rq (fun r => try_except (k r) on_error)) ->
         advance w (k (http w (trace (mem s)) rq))
           (trace (mem s) ++ [EvHttp rq (http w (trace (mem s)) rq)]) = (PThrow e, h') ->
         queue (mem s) = next :: q' ->
         prepare rt next = Ok (account, debank) ->
         exists k',
           resume rt w BADGE_IDS i s =
             mk_state
               (set_nth i
                  (AwaitHttp next (sign_v2_request debank (lower (address account))) k')
                  (tasks s))
               (mk_shared q' (h' ++ [EvLog ERROR (error_text e)])
                  (taken (mem s) ++ [(i, next)]) (finished (mem s) ++ [(i, it)]))
               (raised s)).
Proof.
  split; [intros debank account; apply never_throws_try_except |].
  split.
  { intros debank account h e h' H. unfold attempt.
    change (do debank' <- login rt debank account; mint_loop rt debank' account BADGE_IDS)
      with (try_body rt BADGE_IDS debank account).
    rewrite exec_try_except, H. apply exec_on_error. }
  split.
  { intros q0 h n schedule s.
    pose proof (@run_invariant rt w BADGE_IDS q0 schedule _
                  (@start_invariant rt q0 h n)) as Hinv.
    fold s in Hinv. split; [apply (inv_failed Hinv) |].
    intros e He. destruct (inv_raised Hinv He) as [i Hi].
    destruct (inv_failed Hinv i Hi) as (it & Hin & Hp).
    exists i, it. split; assumption. }
  intros s i it rq k e h' next q' account debank Hi Hadv Hq Hp.
  unfold resume. rewrite Hi. unfold continue. cbn [trace queue taken finished].
  rewrite advance_try_except, Hadv, Hq. cbn [worker]. rewrite Hp.
  unfold put_task. eexists. cbn [attempt]. cbn.
  rewrite record_failure_await by discriminate. reflexivity.
Qed.

(** The login of the first account is refused: the [try] statement logs it
    and ends. *)
Lemma C3_errors_caught_in_worker_witness :
  exec Sample.w_picky
    (attempt Sample.rt Sample.genesis Sample.debank0 Sample.account1) [] =
    (Ok tt,
     snd (exec Sample.w_picky
            (try_body Sample.rt Sample.genesis Sample.debank0 Sample.account1) [])
     ++ [EvLog ERROR "Debank Error: Debank return invalid signature"]).
Proof.
  exact (proj1 (proj2 (C3_errors_caught_in_worker Sample.rt Sample.w_picky Sample.genesis))
           Sample.debank0 Sample.account1 []
           (DebankError "Debank return invalid signature") _ eq_refl).
Defined.

(** One worker, two accounts, the login of the first refused: the run
    completes, both accounts were taken and finished, and the second one
    ended at the call of [badge_mint]. *)
Example refused_login_then_next_account :
  let r := main_with 1 Sample.rt Sample.w_picky [Sample.key1; Sample.key2]
             [0; 0; 0; 0; 0; 0; 0; 0] in
  fst r = Completed
  /\ finished (mem (snd r)) = [(0, [Some Sample.key1; None]); (0, [Some Sample.key2; None])]
  /\ filter (fun ev => match ev with EvLog _ _ => true | _ => false end)
       (trace (mem (snd r))) =
     [EvLog INFO "Found 1 badges. Names: Genesis.";
      EvLog ERROR "Debank Error: Debank return invalid signature";
      EvLog ERROR "Error: AsyncClient.get() got an unexpected keyword argument 'json'"].
Proof. vm_compute. repeat split. Qed.

(** C6, at an [accounts.txt] whose first line is not a key: the catalog is
    fetched, [Account.from_key] raises before the [try] statement, and the
    exception leaves [worker], [gather] and [main]; under no schedule does the
    run complete. *)
Theorem C6_unprepared_account_aborts_run :
  fst (exec Sample.w (badge_list Sample.rt) []) = Ok Sample.genesis
  /\ prepare Sample.rt (format_account "abc123") =
     Raise (PyError "ValueError" "The private key must be exactly 32 bytes long")
  /\ fst (main Sample.rt Sample.w Sample.accounts_bad [0; 1; 2; 3; 4]) =
     Aborted (PyError "ValueError" "The private key must be exactly 32 bytes long")
  /\ (forall schedule,
         fst (main Sample.rt Sample.w Sample.accounts_bad schedule) <> Completed).
Proof.
  split; [reflexivity |]. split; [reflexivity |]. split; [vm_compute; reflexivity |].
  intros schedule. unfold main, main_with.
  destruct (exec Sample.w (badge_list Sample.rt) []) as [[cat | e] h].
  - cbn [fst].
    apply (@unprepared_never_completes Sample.rt Sample.w cat
             (format_accounts Sample.accounts_bad) h 5 schedule
             (format_account "abc123")
             (PyError "ValueError" "The private key must be exactly 32 bytes long")).
    + left. reflexivity.
    + reflexivity.
    + lia.
  - cbn [fst]. discriminate.
Qed.

(** C2, at the same input with the five workers started in turn: when
    [gather] raises in [main], the last two pairs are still in the queue and
    no taken pair has been finished. *)
Theorem C2_pairs_lost_when_run_aborts :
  let r := main Sample.rt Sample.w Sample.accounts_bad [0; 1; 2; 3; 4] in
  fst r = Aborted (PyError "ValueError" "The private key must be exactly 32 bytes long")
  /\ queue (mem (snd r)) = [[Some Sample.key5; None]; [Some Sample.key6; None]]
  /\ map fst (taken (mem (snd r))) = [0; 1; 2; 3; 4]
  /\ finished (mem (snd r)) = [].
Proof. vm_compute. repeat split. Qed.

(** Two workers and two accounts on the generous service: a run that
    completes, each pair taken once and finished by the task that took it. *)
Example two_workers_complete :
  let r := main_with 2 Sample.rt Sample.w
             [Sample.key1; (Sample.key2 ++ ":http://10.0.0.1:8080")%string]
             [0; 1; 0; 1; 0; 1; 0; 1; 0; 1; 0; 1] in
  fst r = Completed
  /\ taken (mem (snd r)) =
     [(0, [Some Sample.key1; None]); (1, [Some Sample.key2; Some "http://10.0.0.1:8080"])]
  /\ finished (mem (snd r)) = taken (mem (snd r)).
Proof. vm_compute. repeat split. Qed.

(** ** The run can always end *)













Section Progress.

Variable rt : runtime.
Variable w : world.
Variable BADGE_IDS : dict.

Let B := attempt_bound BADGE_IDS.











End Progress.

Lemma run_app (rt : runtime) (w : world) (BADGE_IDS : dict) (a b : list nat)
    (s : loop_state) :
  run rt w BADGE_IDS (a ++ b) s = run rt w BADGE_IDS b (run rt w BADGE_IDS a s).
Proof. unfold run. apply fold_left_app. Qed.



(** ** More on the queue and the event loop *)

Lemma firstn_skipn_app {A} (l l' : list A) :
  firstn (List.length l) (l ++ l') = l /\ skipn (List.length l) (l ++ l') = l'.
Proof.
  induction l as [| x rest IH]; simpl; [split; reflexivity |].
  destruct IH as [H1 H2]. rewrite H1, H2. split; reflexivity.
Qed.

(** X1: Whatever the interleaving and the number of workers, the queue is
    handed out first in, first out and no item twice: the items taken so
    far, in the order they were taken, are the first items of the input and
    the queue holds the rest. *)
Theorem dequeued_is_prefix (rt : runtime) (w : world) (BADGE_IDS : dict)
    (q0 : list item) (h : list event) (n : nat) (schedule : list nat) :
  let s := run rt w BADGE_IDS schedule (start q0 h n) in
  map snd (taken (mem s)) = firstn (List.length (taken (mem s))) q0
  /\ queue (mem s) = skipn (List.length (taken (mem s))) q0.
Proof.
  intros s.
  pose proof (@run_invariant rt w BADGE_IDS q0 schedule _
                (@start_invariant rt q0 h n)) as Hinv.
  fold s in Hinv. pose proof (inv_queue Hinv) as Hq.
  destruct (firstn_skipn_app (map snd (taken (mem s))) (queue (mem s))) as [H1 H2].
  rewrite length_map, Hq in H1, H2. split; symmetry; assumption.
Qed.

(** X2: When [gather] has completed with at least one worker, every task has
    returned, the queue is empty, every item of the input was taken, and the
    items finished are the items taken, each by the task that took it. *)
Theorem completed_run_processed_all (rt : runtime) (w : world) (BADGE_IDS : dict)
    (q0 : list item) (h : list event) (n : nat) (schedule : list nat) :
  gather (run rt w BADGE_IDS schedule (start q0 h n)) = Completed ->
  0 < n ->
  forallb is_returned (tasks (run rt w BADGE_IDS schedule (start q0 h n))) = true
  /\ queue (mem (run rt w BADGE_IDS schedule (start q0 h n))) = []
  /\ map snd (taken (mem (run rt w BADGE_IDS schedule (start q0 h n)))) = q0
  /\ Permutation (finished (mem (run rt w BADGE_IDS schedule (start q0 h n))))
       (taken (mem (run rt w BADGE_IDS schedule (start q0 h n)))).
Proof.
  intros Hc Hn.
  destruct (queue_partition rt w BADGE_IDS q0 h n schedule) as [_ Hdone].
  destruct (Hdone Hc Hn) as (Hq & Ht & Hf).
  apply gather_completed in Hc. destruct Hc as [_ Hall].
  repeat split; assumption.
Qed.

Lemma completed_run_processed_all_witness :
  map snd
    (taken (mem (run Sample.rt Sample.w Sample.genesis
                   [0; 1; 0; 1; 0; 1; 0; 1; 0; 1; 0; 1]
                   (start (format_accounts
                             [Sample.key1;
                              (Sample.key2 ++ ":http://10.0.0.1:8080")%string]) [] 2)))) =
    format_accounts [Sample.key1; (Sample.key2 ++ ":http://10.0.0.1:8080")%string].
Proof.
  apply (completed_run_processed_all Sample.rt Sample.w Sample.genesis
           (format_accounts [Sample.key1; (Sample.key2 ++ ":http://10.0.0.1:8080")%string])
           [] [0; 1; 0; 1; 0; 1; 0; 1; 0; 1; 0; 1]);
    [vm_compute; reflexivity | lia].
Defined.

Lemma length_in_flight (b : nat) (ts : list task) :
  List.length (in_flight b ts) <= List.length ts.
Proof.
  revert b. induction ts as [| t rest IH]; intros b; simpl; [lia |].
  rewrite length_app. specialize (IH (S b)). destruct t; simpl; lia.
Qed.

(** X4: At no moment are more than [n] accounts in progress: the items taken
    whose credential and client were built are, up to [n] of them, all
    finished. *)
Theorem bounded_in_flight (rt : runtime) (w : world) (BADGE_IDS : dict)
    (q0 : list item) (h : list event) (n : nat) (schedule : list nat) :
  let s := run rt w BADGE_IDS schedule (start q0 h n) in
  List.length (filter (prepared rt) (taken (mem s))) <= List.length (finished (mem s)) + n.
Proof.
  intros s.
  pose proof (@run_invariant rt w BADGE_IDS q0 schedule _
                (@start_invariant rt q0 h n)) as Hinv.
  fold s in Hinv.
  rewrite (Permutation_length (inv_count Hinv)), length_app.
  pose proof (length_in_flight 0 (tasks s)) as Hfl.
  assert (Hlen : List.length (tasks s) = n).
  { unfold s. rewrite length_tasks_run. simpl. apply repeat_length. }
  lia.
Qed.

(** ** What one account costs, and what it never does *)

Lemma added_app (h tr : list event) : added h (h ++ tr) = tr.
Proof. unfold added. apply (proj2 (firstn_skipn_app h tr)). Qed.

(** A property of all requests of a coroutine holds of the requests a run
    of it added. *)
Lemma all_requests_added {A} (P : request -> Prop) (w : world) (c : coro A)
    (h : list event) :
  all_requests P c -> Forall P (requests_of (added h (snd (exec w c h)))).
Proof.
  intros Hc. destruct (exec_extends w c h) as [tr Htr].
  rewrite Htr, added_app. apply (all_requests_exec P w c h tr Hc Htr).
Qed.

Lemma all_requests_try_except (P : request -> Prop) (c : coro unit) :
  all_requests P c -> all_requests P (try_except c on_error).
Proof.
  induction c as [a | e | rq k IH | secs k IH | lvl msg k IH | k IH | k IH];
    simpl; auto.
  - intros _. destruct e; exact I.
  - intros [Hrq Hk]. split; [exact Hrq | intros r; apply IH, Hk].
Qed.

Lemma all_requests_bind_returns {A B} (P : request -> Prop) (c : coro A)
    (f : A -> coro B) :
  all_requests P c -> (forall a, returns c a -> all_requests P (f a)) ->
  all_requests P (bind c f).
Proof.
  induction c as [a | e | rq k IH | secs k IH | lvl msg k IH | k IH | k IH];
    simpl; intros Hc Hf; auto.
  - destruct Hc as [Hrq Hk]. split; [exact Hrq |].
    intros r. apply IH; [apply Hk | intros a Ha; apply Hf; exists r; exact Ha].
  - intros t. apply IH; [apply Hc | intros a Ha; apply Hf; exists t; exact Ha].
  - intros u. apply IH; [apply Hc | intros a Ha; apply Hf; exists u; exact Ha].
Qed.

Lemma returns_bind {A B} (c : coro A) (f : A -> coro B) (b : B) :
  returns (bind c f) b -> exists a, returns c a /\ returns (f a) b.
Proof.
  induction c as [a | e | rq k IH | secs k IH | lvl msg k IH | k IH | k IH];
    simpl; intros H; auto.
  - exists a. split; [reflexivity | exact H].
  - destruct H.
  - destruct H as [r H]. destruct (IH r H) as (a & Ha & Hb).
    exists a. split; [exists r; exact Ha | exact Hb].
  - destruct H as [t H]. destruct (IH t H) as (a & Ha & Hb).
    exists a. split; [exists t; exact Ha | exact Hb].
  - destruct H as [u H]. destruct (IH u H) as (a & Ha & Hb).
    exists a. split; [exists u; exact Ha | exact Hb].
Qed.

(** The object [login] returns has the proxy it had and an ["account"]
    header. *)
Lemma login_returns (rt : runtime) (self self' : Debank) (account : Account) :
  returns (login rt self account) self' ->
  proxies self' = proxies self
  /\ exists value, get_header "account" (headers self') = Some value.
Proof.
  unfold login. intros H.
  apply returns_bind in H. destruct H as (r1 & _ & H).
  apply returns_bind in H. destruct H as (t & _ & H).
  apply returns_bind in H. destruct H as (sg & _ & H).
  apply returns_bind in H. destruct H as (r2 & _ & H).
  apply returns_bind in H. destruct H as (sid & _ & H).
  simpl in H. destruct H as (now & u & H). subst self'. simpl.
  split; [reflexivity |]. eexists. apply get_header_set_header.
Qed.

Lemma all_requests_login (P : request -> Prop) (rt : runtime) (self : Debank)
    (account : Account) :
  (forall m url params body,
      In (m, url) [(POST, DebankApiUrl.SIGN_V2); (POST, DebankApiUrl.LOGIN_V2)] ->
      P (mk_request m url params body (headers self) (proxies self))) ->
  all_requests P (login rt self account).
Proof.
  intros HP. unfold login.
  apply all_requests_bind.
  { apply all_requests_validated, HP. left. reflexivity. }
  intros r1. apply all_requests_bind; [apply all_requests_lift | intros t].
  apply all_requests_bind; [apply all_requests_lift | intros sg].
  apply all_requests_bind.
  { apply all_requests_validated, HP. right. left. reflexivity. }
  intros r2. apply all_requests_bind; [apply all_requests_lift | intros sid].
  simpl. intros now u. exact I.
Qed.

Lemma all_requests_impl {A} (P Q : request -> Prop) (c : coro A) :
  (forall rq, P rq -> Q rq) -> all_requests P c -> all_requests Q c.
Proof.
  intros HPQ.
  induction c as [a | e | rq k IH | secs k IH | lvl msg k IH | k IH | k IH];
    simpl; auto.
  intros [Hrq Hk]. split; [apply HPQ, Hrq | intros r; apply IH, Hk].
Qed.

Lemma all_requests_mint_loop_endpoints (rt : runtime) (debank : Debank)
    (account : Account) (items : dict) :
  all_requests (fun rq => In (rq_method rq, rq_url rq) worker_endpoints)
    (mint_loop rt debank account items).
Proof.
  induction items as [| [id name] rest IH]; [exact I |].
  cbn [mint_loop].
  apply all_requests_bind.
  - unfold is_can_mint_bage. apply all_requests_bind.
    + apply all_requests_validated. right. right. left. reflexivity.
    + intros r. apply all_requests_lift.
  - intros flag. apply all_requests_bind.
    + destruct (py_truthy flag); [| exact I].
      exact I.
    + intros _. exact IH.
Qed.

(** The mint loop sends nothing to the mint endpoint. *)
Lemma all_requests_mint_loop_no_mint (rt : runtime) (debank : Debank)
    (account : Account) (items : dict) :
  all_requests (fun rq => rq_url rq <> DebankApiUrl.BADGE_MINT)
    (mint_loop rt debank account items).
Proof.
  induction items as [| [id name] rest IH]; [exact I |].
  cbn [mint_loop].
  apply all_requests_bind.
  - unfold is_can_mint_bage. apply all_requests_bind.
    + apply all_requests_validated. discriminate.
    + intros r. apply all_requests_lift.
  - intros flag. apply all_requests_bind.
    + destruct (py_truthy flag); exact I.
    + intros _. exact IH.
Qed.

(** C7: [badge_mint] passes [json=] to [AsyncClient.get], which takes no such
    argument: in every world the call raises [TypeError] and leaves the
    history as it was, so nothing is sent, and no run of the [try] statement
    sends a request to the mint endpoint.  For an account the service lets
    in and the catalog [{1: "Genesis"}] whose badge it reports as mintable,
    the run after the login is the can-mint query, answered with
    [data.can_mint] true, and the logged [TypeError]: no mint request, no
    success line and no sleep. *)
Theorem C7_mint_call_raises (rt : runtime) (w : world) (BADGE_IDS : dict)
    (debank : Debank) (account : Account) (id : JSON) (h : list event) :
  exec w (badge_mint rt debank id) h = (Raise get_json_error, h)
  /\ Forall (fun rq => rq_url rq <> DebankApiUrl.BADGE_MINT)
       (requests_of (added h (snd (exec w (attempt rt BADGE_IDS debank account) h))))
  /\ exec Sample.w (attempt Sample.rt Sample.genesis Sample.debank0 Sample.account1) [] =
     (Ok tt,
      snd Sample.after_login
      ++ [EvHttp (can_mint_request (fst Sample.after_login) (JInt 1))
            (Ok (mk_response 200 EmptyString
                   (Some (JObj [("data", JObj [("can_mint", JBool true)])]))));
          EvLog ERROR "Error: AsyncClient.get() got an unexpected keyword argument 'json'"]).
Proof.
  split; [reflexivity |]. split; [| vm_compute; reflexivity].
  apply all_requests_added. unfold attempt. apply all_requests_try_except.
  apply all_requests_bind.
  - apply all_requests_login. intros m url params body [H | [H | []]];
      injection H as Hm Hu; subst m url; discriminate.
  - intros d. apply all_requests_mint_loop_no_mint.
Qed.

(** X6: Processing an account only ever calls four endpoints: the sign
    challenge and the login by [POST], the can-mint query and the mint by
    [GET].  The referral endpoint of [refcode_track] is never called. *)
Theorem worker_calls_four_endpoints (rt : runtime) (w : world) (BADGE_IDS : dict)
    (debank : Debank) (account : Account) (h : list event) :
  Forall (fun rq => In (rq_method rq, rq_url rq) worker_endpoints
                    /\ rq_url rq <> DebankApiUrl.REFCODE_TRACK)
    (requests_of (added h (snd (exec w (attempt rt BADGE_IDS debank account) h)))).
Proof.
  apply all_requests_added. unfold attempt. apply all_requests_try_except.
  apply all_requests_impl
    with (P := fun rq => In (rq_method rq, rq_url rq) worker_endpoints).
  - intros rq Hin. split; [exact Hin |].
    intros E. rewrite E in Hin. simpl in Hin.
    destruct Hin as [H | [H | [H | [H | []]]]]; discriminate H.
  - apply all_requests_bind.
    + apply all_requests_login. intros m url params body [H | [H | []]];
        injection H as Hm Hu; subst m url; simpl; auto.
    + intros d. apply all_requests_mint_loop_endpoints.
Qed.

(** X7: Every request made for a queue item goes through the proxy of the item,
    and through none when the item has no proxy or an empty one (a line
    ending in a colon). *)
Theorem requests_use_item_proxy (rt : runtime) (w : world) (BADGE_IDS : dict)
    (private_key : string) (proxy : option string) (account : Account)
    (debank : Debank) (h : list event) :
  prepare rt [Some private_key; proxy] = Ok (account, debank) ->
  Forall (fun rq => rq_proxies rq = proxy_of proxy)
    (requests_of (added h (snd (exec w (attempt rt BADGE_IDS debank account) h)))).
Proof.
  intros Hp. cbn [prepare] in Hp.
  destruct (from_key rt private_key) as [account0 | e]; [| discriminate Hp].
  cbn [rbind] in Hp. unfold Debank_init in Hp. fold (proxy_of proxy) in Hp.
  destruct (client_error rt (proxy_of proxy)); [discriminate Hp |].
  cbn [rbind] in Hp. injection Hp as Ha Hd. subst account0 debank.
  apply all_requests_added. unfold attempt. apply all_requests_try_except.
  apply all_requests_bind_returns.
  - apply all_requests_login. intros m url params body _. reflexivity.
  - intros d Hd. destruct (login_returns Hd) as [Hpx _].
    eapply all_requests_impl; [| apply all_requests_mint_loop].
    intros rq [_ H]. rewrite H. exact Hpx.
Qed.

Lemma requests_use_item_proxy_witness :
  Forall (fun rq => rq_proxies rq = None)
    (requests_of
       (added []
          (snd (exec Sample.w
                  (attempt Sample.rt Sample.genesis Sample.debank0 Sample.account1) [])))).
Proof.
  exact (@requests_use_item_proxy Sample.rt Sample.w Sample.genesis Sample.key1
           (Some "") Sample.account1 Sample.debank0 [] eq_refl).
Defined.

Lemma requests_bounded_mono {A} (c : coro A) (n m : nat) :
  n <= m -> requests_bounded n c -> requests_bounded m c.
Proof.
  revert n m. induction c as [a | e | rq k IH | secs k IH | lvl msg k IH | k IH | k IH];
    intros n m Hle; simpl; auto.
  - destruct n as [| n]; [intros [] |]. destruct m as [| m]; [lia |].
    intros H r. apply (IH r n m); [lia | apply H].
  - apply IH, Hle.
  - apply IH, Hle.
  - intros H t. apply (IH t n m Hle), H.
  - intros H u. apply (IH u n m Hle), H.
Qed.

Lemma requests_bounded_bind {A B} (c : coro A) (f : A -> coro B) (n m : nat) :
  requests_bounded n c -> (forall a, requests_bounded m (f a)) ->
  requests_bounded (n + m) (bind c f).
Proof.
  revert n. induction c as [a | e | rq k IH | secs k IH | lvl msg k IH | k IH | k IH];
    intros n Hc Hf; simpl in *; auto.
  - apply requests_bounded_mono with (n := m); [lia | apply Hf].
  - destruct n as [| n]; [destruct Hc |]. simpl. intros r. apply IH; auto.
Qed.

Lemma requests_bounded_lift {A} (r : result A) (n : nat) : requests_bounded n (lift r).
Proof. destruct r; exact I. Qed.


Lemma requests_bounded_validated (rt : runtime) (self : Debank) (m : http_method)
    (url : string) (params body : option JSON) :
  requests_bounded 1 (do response <- client_request self m url params body;
                      lift (validate_response rt response)).
Proof.
  simpl. intros [response | e]; simpl; [apply requests_bounded_lift | exact I].
Qed.

Lemma requests_bounded_login (rt : runtime) (self : Debank) (account : Account) :
  requests_bounded 2 (login rt self account).
Proof.
  unfold login.
  apply (requests_bounded_bind _ _ 1 1); [apply requests_bounded_validated | intros r1].
  apply (requests_bounded_bind _ _ 0 1); [apply requests_bounded_lift | intros t].
  apply (requests_bounded_bind _ _ 0 1); [apply requests_bounded_lift | intros sg].
  apply (requests_bounded_bind _ _ 1 0); [apply requests_bounded_validated | intros r2].
  apply (requests_bounded_bind _ _ 0 0); [apply requests_bounded_lift | intros sid].
  simpl. intros now u. exact I.
Qed.


Lemma requests_bounded_exec {A} (w : world) (c : coro A) (h : list event) (n : nat) :
  requests_bounded n c ->
  List.length (requests_of (added h (snd (exec w c h)))) <= n.
Proof.
  revert h n. induction c as [a | e | rq k IH | secs k IH | lvl msg k IH | k IH | k IH];
    intros h n Hc; simpl in *.
  1, 2: rewrite <- (app_nil_r h) at 2; rewrite added_app; simpl; lia.
  - destruct n as [| n]; [destruct Hc |].
    specialize (IH (http w h rq) (h ++ [EvHttp rq (http w h rq)]) n (Hc _)).
    destruct (exec_extends w (k (http w h rq)) (h ++ [EvHttp rq (http w h rq)]))
      as [tr Htr].
    rewrite Htr in IH |- *. rewrite added_app in IH.
    rewrite <- app_assoc, added_app. simpl. lia.
  - specialize (IH (h ++ [EvSleep secs]) n Hc).
    destruct (exec_extends w k (h ++ [EvSleep secs])) as [tr Htr].
    rewrite Htr in IH |- *. rewrite added_app in IH.
    rewrite <- app_assoc, added_app. simpl. exact IH.
  - specialize (IH (h ++ [EvLog lvl msg]) n Hc).
    destruct (exec_extends w k (h ++ [EvLog lvl msg])) as [tr Htr].
    rewrite Htr in IH |- *. rewrite added_app in IH.
    rewrite <- app_assoc, added_app. simpl. exact IH.
  - specialize (IH (time_now w h) (h ++ [EvTime (time_now w h)]) n (Hc _)).
    destruct (exec_extends w (k (time_now w h)) (h ++ [EvTime (time_now w h)]))
      as [tr Htr].
    rewrite Htr in IH |- *. rewrite added_app in IH.
    rewrite <- app_assoc, added_app. simpl. exact IH.
  - specialize (IH (uuid4_hex w h) (h ++ [EvUuid (uuid4_hex w h)]) n (Hc _)).
    destruct (exec_extends w (k (uuid4_hex w h)) (h ++ [EvUuid (uuid4_hex w h)]))
      as [tr Htr].
    rewrite Htr in IH |- *. rewrite added_app in IH.
    rewrite <- app_assoc, added_app. simpl. exact IH.
Qed.


(** X8: When [login] raises, the account ends there: the exception is logged
    and nothing else happens, so no badge is queried or minted; what [login]
    had asked by then is the sign challenge and at most the login. *)
Theorem failed_login_ends_account (rt : runtime) (w : world) (BADGE_IDS : dict)
    (debank : Debank) (account : Account) (h h1 : list event) (e : exn) :
  exec w (login rt debank account) h = (Raise e, h1) ->
  exec w (attempt rt BADGE_IDS debank account) h =
    (Ok tt, h1 ++ [EvLog ERROR (error_text e)])
  /\ Forall (fun rq => rq_method rq = POST
                       /\ (rq_url rq = DebankApiUrl.SIGN_V2
                           \/ rq_url rq = DebankApiUrl.LOGIN_V2))
       (requests_of (added h h1))
  /\ List.length (requests_of (added h h1)) <= 2.
Proof.
  intros H. split; [| split].
  - unfold attempt. rewrite exec_try_except, exec_bind, H. apply exec_on_error.
  - replace h1 with (snd (exec w (login rt debank account) h)) by (rewrite H; reflexivity).
    apply all_requests_added, all_requests_login.
    intros m url params body [E | [E | []]]; injection E as Hm Hu; subst m url; simpl; auto.
  - replace h1 with (snd (exec w (login rt debank account) h)) by (rewrite H; reflexivity).
    apply requests_bounded_exec, requests_bounded_login.
Qed.

Lemma failed_login_ends_account_witness :
  exec Sample.w_picky
    (attempt Sample.rt Sample.genesis Sample.debank0 Sample.account1) [] =
    (Ok tt,
     snd (exec Sample.w_picky (login Sample.rt Sample.debank0 Sample.account1) [])
     ++ [EvLog ERROR "Debank Error: Debank return invalid signature"]).
Proof.
  exact (proj1 (@failed_login_ends_account Sample.rt Sample.w_picky Sample.genesis
                  Sample.debank0 Sample.account1 [] _
                  (DebankError "Debank return invalid signature") eq_refl)).
Defined.

(** X9: [validate_response] lets a response through exactly when its status is
    200, its body decodes and ["error_msg" in body] is false; what it returns
    is then the response itself.  So a body that is a list or a [str] passes
    as long as it does not hold ["error_msg"] as an element or as a
    substring. *)
Theorem validate_response_accepts (rt : runtime) (response response' : Response) :
  validate_response rt response = Ok response' <->
  response' = response
  /\ status_code response = 200%Z
  /\ exists body, json response = Some body /\ py_contains "error_msg" body = Ok false.
Proof.
  split.
  - intros H. split; [apply (validate_response_same rt response H) |].
    apply (validate_response_ok rt response H).
  - intros (E & Hs & body & Hj & Hc). subst response'.
    rewrite validate_response_200 by assumption.
    unfold response_json. rewrite Hj. cbn [rbind]. rewrite Hc. reflexivity.
Qed.

Lemma validate_response_accepts_witness :
  validate_response Sample.rt
    (mk_response 200 "[1, 2]" (Some (JArr [JInt 1; JInt 2]))) =
    Ok (mk_response 200 "[1, 2]" (Some (JArr [JInt 1; JInt 2]))).
Proof.
  apply (proj2 (validate_response_accepts Sample.rt
                  (mk_response 200 "[1, 2]" (Some (JArr [JInt 1; JInt 2])))
                  (mk_response 200 "[1, 2]" (Some (JArr [JInt 1; JInt 2]))))).
  split; [reflexivity | split; [reflexivity |]].
  exists (JArr [JInt 1; JInt 2]). split; reflexivity.
Defined.

(** ** The catalog [badge_list] returns *)

Lemma dict_put_keys_shape (k v : JSON) (d : dict) :
  map fst (dict_put k v d) = map fst d
  \/ (map fst (dict_put k v d) = map fst d ++ [k]
      /\ forallb (fun k' => negb (key_eqb k' k)) (map fst d) = true).
Proof.
  induction d as [| [k' v'] rest IH]; simpl.
  - right. split; reflexivity.
  - destruct (key_eqb k' k) eqn:E; simpl.
    + left. reflexivity.
    + destruct IH as [IH | [IH Hn]].
      * left. rewrite IH. reflexivity.
      * right. rewrite IH, Hn. split; reflexivity.
Qed.

Lemma distinct_keys_snoc (ks : list JSON) (k : JSON) :
  distinct_keys ks = true ->
  forallb (fun k' => negb (key_eqb k' k)) ks = true ->
  distinct_keys (ks ++ [k]) = true.
Proof.
  induction ks as [| k0 rest IH]; simpl; [reflexivity |].
  intros Hd Hn. apply andb_prop in Hd. destruct Hd as [H0 Hrest].
  apply andb_prop in Hn. destruct Hn as [Hk Hn].
  rewrite (IH Hrest Hn), andb_true_r, forallb_app, H0. simpl.
  rewrite key_eqb_sym, Hk. reflexivity.
Qed.

(** A store keeps the keys of a dict pairwise different. *)
Lemma distinct_keys_put (k v : JSON) (d : dict) :
  distinct_keys (map fst d) = true -> distinct_keys (map fst (dict_put k v d)) = true.
Proof.
  intros Hd. destruct (dict_put_keys_shape k v d) as [E | [E Hn]]; rewrite E.
  - exact Hd.
  - apply distinct_keys_snoc; assumption.
Qed.

Lemma forallb_put (P : JSON -> bool) (Q : JSON -> bool) (k v : JSON) (d : dict) :
  forallb P (map fst d) = true -> forallb Q (map snd d) = true ->
  P k = true -> Q v = true ->
  forallb P (map fst (dict_put k v d)) = true
  /\ forallb Q (map snd (dict_put k v d)) = true.
Proof.
  intros HP HQ Hk Hv. induction d as [| [k' v'] rest IH]; simpl in *.
  - rewrite Hk, Hv. split; reflexivity.
  - apply andb_prop in HP. destruct HP as [HP1 HP2].
    apply andb_prop in HQ. destruct HQ as [HQ1 HQ2].
    destruct (key_eqb k' k); simpl.
    + rewrite HP1, HP2, Hv, HQ2. split; reflexivity.
    + destruct (IH HP2 HQ2) as [H1 H2]. rewrite HP1, HQ1, H1, H2. split; reflexivity.
Qed.

Lemma length_dict_put (k v : JSON) (d : dict) :
  List.length (dict_put k v d) <= S (List.length d).
Proof.
  induction d as [| [k' v'] rest IH]; simpl; [lia |].
  destruct (key_eqb k' k); simpl; lia.
Qed.

(** What the dict comprehension keeps, store after store. *)
Lemma fold_put_well_formed (entries : list (JSON * JSON)) (acc : dict) :
  forallb hashable (map fst entries) = true ->
  forallb is_JStr (map snd entries) = true ->
  distinct_keys (map fst acc) = true ->
  forallb hashable (map fst acc) = true ->
  forallb is_JStr (map snd acc) = true ->
  let cat := fold_left (fun d e => dict_put (fst e) (snd e) d) entries acc in
  distinct_keys (map fst cat) = true
  /\ forallb hashable (map fst cat) = true
  /\ forallb is_JStr (map snd cat) = true
  /\ List.length cat <= List.length acc + List.length entries.
Proof.
  revert acc. induction entries as [| [k v] rest IH]; intros acc Hh Hs Hd Hah Has; simpl.
  - repeat split; auto. lia.
  - simpl in Hh, Hs.
    apply andb_prop in Hh. destruct Hh as [Hk Hh].
    apply andb_prop in Hs. destruct Hs as [Hv Hs].
    destruct (forallb_put hashable is_JStr k v acc Hah Has Hk Hv) as [H1 H2].
    destruct (IH (dict_put k v acc) Hh Hs (distinct_keys_put k v acc Hd) H1 H2)
      as (I1 & I2 & I3 & I4).
    repeat split; auto. pose proof (length_dict_put k v acc). lia.
Qed.

Lemma join_items_str (index : nat) (items : list JSON) (ss : list string) :
  join_items index items = Ok ss -> forallb is_JStr items = true.
Proof.
  revert index ss. induction items as [| item rest IH]; intros index ss; simpl;
    [reflexivity |].
  destruct item; try discriminate.
  destruct (join_items (S index) rest) as [ss' |] eqn:E; simpl; [| discriminate].
  intros _. apply (IH (S index) ss' E).
Qed.

Lemma mapM_length {A B} (f : A -> result B) (l : list A) (l' : list B) :
  mapM f l = Ok l' -> List.length l' = List.length l.
Proof.
  revert l'. induction l as [| a rest IH]; intros l'; simpl.
  - intros H. injection H as H. subst l'. reflexivity.
  - destruct (f a) as [b | e]; simpl; [| discriminate].
    destruct (mapM f rest) as [bs | e]; simpl; [| discriminate].
    intros H. injection H as H. subst l'. simpl. rewrite (IH bs eq_refl). reflexivity.
Qed.

(** X10: The catalog [badge_list] returns is a well-formed [dict[?, str]]: its
    keys are hashable and pairwise different, its names are [str]; it has at
    most as many entries as the response has badges; and [badge_list] made
    one request and logged one line, the summary of the response, before. *)
Theorem returned_catalog_well_formed (rt : runtime) (w : world) (h h' : list event)
    (cat : dict) :
  exec w (badge_list rt) h = (Ok cat, h') ->
  distinct_keys (map fst cat) = true
  /\ forallb hashable (map fst cat) = true
  /\ forallb is_JStr (map snd cat) = true
  /\ exists (response : Response) (badge_list_json : JSON) (badges : list JSON)
            (summary : string),
       data_field response "badge_list" = Ok badge_list_json
       /\ py_iter badge_list_json = Ok badges
       /\ badge_summary badge_list_json = Ok summary
       /\ List.length cat <= List.length badges
       /\ h' = h ++ [EvHttp (badge_list_request rt) (Ok response); EvLog INFO summary].
Proof.
  intros H. unfold badge_list in H.
  destruct (client_error rt None) as [e |]; [discriminate H |].
  cbn [exec] in H. fold (badge_list_request rt) in H.
  destruct (http w h (badge_list_request rt)) as [response | e] eqn:Hr; [| discriminate H].
  cbn [lift bind] in H. unfold badge_list_of in H.
  rewrite exec_bind, exec_lift in H.
  destruct (data_field response "badge_list") as [bl | e] eqn:Hd; [| discriminate H].
  rewrite exec_bind, exec_lift in H.
  destruct (badge_summary bl) as [summary | e] eqn:Hsum; [| discriminate H].
  cbn [exec] in H. rewrite exec_lift in H.
  destruct (py_iter bl) as [badges | e] eqn:Hi; [| discriminate H].
  cbn [rbind] in H.
  destruct (badge_dict badges []) as [cat0 | e] eqn:Hb; [| discriminate H].
  injection H as Hcat Hh. subst cat0.
  destruct (badge_dict_entries _ _ Hb) as (entries & Hm & Hhash & Hfold).
  assert (Hstr : forallb is_JStr (map snd entries) = true).
  { unfold badge_summary in Hsum.
    destruct (py_len bl) as [len | e]; [| discriminate Hsum]. cbn [rbind] in Hsum.
    rewrite Hi in Hsum. cbn [rbind] in Hsum.
    rewrite (mapM_badge_entry_names _ Hm) in Hsum. cbn [rbind] in Hsum.
    unfold str_join in Hsum.
    destruct (join_items 0 (map snd entries)) as [ss | e] eqn:Hj; [| discriminate Hsum].
    apply (join_items_str _ _ Hj). }
  destruct (fold_put_well_formed entries [] Hhash Hstr eq_refl eq_refl eq_refl)
    as (I1 & I2 & I3 & I4).
  rewrite <- Hfold in I1, I2, I3, I4.
  repeat (split; [assumption |]).
  exists response, bl, badges, summary.
  repeat (split; [reflexivity || assumption |]).
  split.
  - rewrite <- (mapM_length _ _ Hm). simpl in I4. exact I4.
  - rewrite <- Hh, <- app_assoc. reflexivity.
Qed.

Lemma returned_catalog_well_formed_witness :
  distinct_keys (map fst Sample.genesis) = true
  /\ forallb hashable (map fst Sample.genesis) = true
  /\ forallb is_JStr (map snd Sample.genesis) = true
  /\ exists (response : Response) (badge_list_json : JSON) (badges : list JSON)
            (summary : string),
       data_field response "badge_list" = Ok badge_list_json
       /\ py_iter badge_list_json = Ok badges
       /\ badge_summary badge_list_json = Ok summary
       /\ List.length Sample.genesis <= List.length badges
       /\ snd (exec Sample.w (badge_list Sample.rt) []) =
          [] ++ [EvHttp (badge_list_request Sample.rt) (Ok response); EvLog INFO summary].
Proof.
  exact (@returned_catalog_well_formed Sample.rt Sample.w []
           (snd (exec Sample.w (badge_list Sample.rt) [])) Sample.genesis eq_refl).
Defined.

(** The sample service answers the badge-list call in the documented shape. *)
Lemma badge_list_returns_witness :
  exists cat summary,
    exec Sample.w (badge_list Sample.rt) [] =
      (Ok cat,
       [] ++ [EvHttp (badge_list_request Sample.rt)
                (Sample.ok (Sample.data "badge_list"
                              (JArr [JObj [("id", JInt 1); ("name", JStr "Genesis")]])));
              EvLog INFO summary]).
Proof.
  apply (@badge_list_returns Sample.rt Sample.w []
           (mk_response 200 ""
              (Some (Sample.data "badge_list"
                       (JArr [JObj [("id", JInt 1); ("name", JStr "Genesis")]]))))
           [JObj [("id", JInt 1); ("name", JStr "Genesis")]]
           [(JInt 1, JStr "Genesis")]); reflexivity.
Defined.

(** ** The eligibility flag *)

Lemma data_field_ok_iff (response : Response) (field : string) (value : JSON) :
  data_field response field = Ok value <->
  exists fields data,
    json response = Some (JObj fields)
    /\ lookup "data" fields = Some (JObj data)
    /\ lookup field data = Some value.
Proof.
  unfold data_field, response_json. split.
  - destruct (json response) as [[ | b | n | s | items | fields] |] eqn:Ej; simpl;
      try discriminate.
    destruct (lookup "data" fields) as [[ | b | n | s | items | data] |] eqn:Ed; simpl;
      try discriminate.
    destruct (lookup field data) as [v |] eqn:Ef; [| discriminate].
    intros H. injection H as H. subst v. exists fields, data. repeat split; auto.
  - intros (fields & data & Hj & Hd & Hf). rewrite Hj. simpl. rewrite Hd. simpl.
    rewrite Hf. reflexivity.
Qed.

(** X12: [is_can_mint_bage] returns a value exactly when the service answered
    the query with status 200 and an object that has no ["error_msg"] and
    whose ["data"] is an object with a ["can_mint"]; the value is what is
    stored there, of whatever JSON type, and one request was made. *)
Theorem can_mint_flag_iff (rt : runtime) (w : world) (self : Debank) (id flag : JSON)
    (h h' : list event) :
  exec w (is_can_mint_bage rt self id) h = (Ok flag, h') <->
  exists response fields data,
    http w h (can_mint_request self id) = Ok response
    /\ status_code response = 200%Z
    /\ json response = Some (JObj fields)
    /\ lookup "error_msg" fields = None
    /\ lookup "data" fields = Some (JObj data)
    /\ lookup "can_mint" data = Some flag
    /\ h' = h ++ [EvHttp (can_mint_request self id) (Ok response)].
Proof.
  rewrite exec_is_can_mint_bage. cbv zeta. split.
  - intros H. injection H as Hres Hh.
    destruct (http w h (can_mint_request self id)) as [response | e] eqn:Hr;
      [| discriminate Hres].
    cbn [rbind] in Hres.
    destruct (validate_response rt response) as [response0 | e] eqn:Hv;
      [| discriminate Hres].
    pose proof (validate_response_same rt response Hv) as E. subst response0.
    cbn [rbind] in Hres.
    apply data_field_ok_iff in Hres. destruct Hres as (fields & data & Hj & Hd & Hf).
    destruct (validate_response_ok rt response Hv) as (Hs & body & Hb & Hc).
    rewrite Hj in Hb. injection Hb as Hb. subst body. simpl in Hc.
    exists response, fields, data.
    repeat (split; [reflexivity || assumption |]).
    split; [| split; [assumption | split; [assumption | symmetry; exact Hh]]].
    destruct (lookup "error_msg" fields); [discriminate Hc | reflexivity].
  - intros (response & fields & data & Hr & Hs & Hj & He & Hd & Hf & Hh).
    rewrite Hr. cbn [rbind].
    rewrite (validate_response_object rt response Hs Hj), He. cbn [rbind].
    rewrite (proj2 (data_field_ok_iff response "can_mint" flag)).
    + rewrite Hh. reflexivity.
    + exists fields, data. repeat split; assumption.
Qed.

(** ** An empty accounts file *)

(** X13: With no account queued no worker asks anything: the history stays as
    [badge_list] left it, nothing is taken, and every worker that got a turn
    has returned; once each had one, [gather] has completed. *)
Theorem empty_queue_run (rt : runtime) (w : world) (BADGE_IDS : dict)
    (h : list event) (n : nat) (schedule : list nat) :
  let s := run rt w BADGE_IDS schedule (start [] h n) in
  mem s = mk_shared [] h [] []
  /\ (forall i, In i schedule -> i < n -> nth_error (tasks s) i = Some Returned)
  /\ ((forall i, i < n -> In i schedule) -> gather s = Completed).
Proof.
  cbv zeta.
  assert (Hinv : mem (run rt w BADGE_IDS schedule (start [] h n)) = mk_shared [] h [] []
                 /\ raised (run rt w BADGE_IDS schedule (start [] h n)) = None
                 /\ List.length (tasks (run rt w BADGE_IDS schedule (start [] h n))) = n
                 /\ (forall i t, nth_error (tasks (run rt w BADGE_IDS schedule (start [] h n))) i
                                 = Some t -> t = Created \/ t = Returned)
                 /\ (forall i, In i schedule -> i < n ->
                       nth_error (tasks (run rt w BADGE_IDS schedule (start [] h n))) i
                       = Some Returned)).
  { induction schedule as [| i rest IH] using rev_ind.
    - simpl. repeat split.
      + apply repeat_length.
      + intros i t H. apply nth_error_In in H. apply repeat_spec in H. left. exact H.
      + intros i [].
    - rewrite run_app. cbn [run fold_left].
      set (s := run rt w BADGE_IDS rest (start [] h n)) in *.
      destruct IH as (Hm & Hr & Hl & Hshape & Hdone).
      unfold resume.
      destruct (nth_error (tasks s) i) as [t |] eqn:Hi.
      + destruct (Hshape i t Hi) as [E | E]; subst t.
        * rewrite Hm. cbn [queue trace taken finished worker].
          unfold put_task. cbn [fst snd tasks mem raised record_failure].
          rewrite Hr. repeat split.
          -- rewrite length_set_nth. exact Hl.
          -- intros j t Hj. destruct (Nat.eq_dec i j) as [E | N].
             ++ subst j. rewrite (nth_error_set_nth_eq _ _ Returned Hi) in Hj.
                right. congruence.
             ++ rewrite (nth_error_set_nth_neq _ _ N) in Hj. apply (Hshape j t Hj).
          -- intros j Hj Hlt. destruct (Nat.eq_dec i j) as [E | N].
             ++ subst j. apply (nth_error_set_nth_eq _ _ Returned Hi).
             ++ rewrite (nth_error_set_nth_neq _ _ N). apply Hdone; [| exact Hlt].
                apply in_app_or in Hj. destruct Hj as [Hj | [Hj | []]];
                  [exact Hj | contradiction].
        * repeat split; auto.
          intros j Hj Hlt. apply in_app_or in Hj. destruct Hj as [Hj | [Hj | []]].
          -- apply Hdone; assumption.
          -- subst j. exact Hi.
      + repeat split; auto.
        intros j Hj Hlt. apply in_app_or in Hj. destruct Hj as [Hj | [Hj | []]].
        * apply Hdone; assumption.
        * subst j. apply nth_error_None in Hi. lia. }
  destruct Hinv as (Hm & Hr & Hl & Hshape & Hdone).
  split; [exact Hm |]. split; [exact Hdone |].
  intros Hall. unfold gather. rewrite Hr.
  assert (Hret : forallb is_returned (tasks (run rt w BADGE_IDS schedule (start [] h n)))
                 = true).
  { apply forallb_forall. intros t Ht. apply In_nth_error in Ht. destruct Ht as [i Hi].
    assert (Hlt : i < n).
    { rewrite <- Hl. apply nth_error_Some. rewrite Hi. discriminate. }
    rewrite (Hdone i (Hall i Hlt) Hlt) in Hi. injection Hi as Hi. subst t. reflexivity. }
  rewrite Hret. reflexivity.
Qed.
